(** * PDF-Image-2-Markdown: a shallow embedding of [app.py]

    The program converts uploaded PDF files to Markdown: the native text of
    every page, then the text EasyOCR recognises in the page's embedded
    images, then a summary of everything that went wrong.

    The embedding follows [app.py] statement by statement.  Python's
    exceptions, [continue] and [try]/[except]/[finally] are kept as they
    are, in a small monad over the program's mutable lists and the trace of
    its calls to the outside world (Streamlit widgets, PyMuPDF, the file
    system, the OCR engine).  What the external libraries answer is part of
    the input: every object carries, for each method the program calls on
    it, the value returned or the message of the exception raised. *)

From Stdlib Require Import QArith.
From Stdlib Require Import Ascii DecimalString DecimalNat.
From stdpp Require Import base strings list gmap.

(** ** Python values *)

(** The result of calling into a library: a value, or [str(e)] of the
    exception it raises. *)
Inductive result (A : Type) : Type :=
  | Ok (a : A)
  | Err (msg : string).
Arguments Ok {A} a.
Arguments Err {A} msg.

(** [str(n)] for a non-negative integer, as f-strings print it. *)
Definition str (n : nat) : string :=
  NilEmpty.string_of_uint (Nat.to_uint n).

Definition nl : string := String (Ascii.ascii_of_nat 10) EmptyString.

(** [sep.join(l)] *)
Fixpoint join (sep : string) (l : list string) : string :=
  match l with
  | [] => ""
  | [x] => x
  | x :: l' => x +:+ sep +:+ join sep l'
  end.

(** Truth value of a Python string and of a Python list. *)
Definition truthy_str (s : string) : bool :=
  match s with EmptyString => false | _ => true end.

Definition truthy {A} (l : list A) : bool :=
  match l with [] => false | _ => true end.

(** [enumerate(l)] *)
Fixpoint enumerate_from {A} (i : nat) (l : list A) : list (nat * A) :=
  match l with
  | [] => []
  | x :: l' => (i, x) :: enumerate_from (S i) l'
  end.

Definition enumerate {A} (l : list A) : list (nat * A) := enumerate_from 0 l.

(** [range(n)] *)
Definition range (n : nat) : list nat := seq 0 n.

(** ** The objects handed to the program *)

(** An image as PIL sees it after [Image.open]. *)
Record PIL_image := { format : string }.

(** The [bytes] of an embedded image: its length, what [Image.open] makes
    of it, and what EasyOCR reads in a file that holds it. *)
Record image_bytes := {
  image_len : N;
  Image_open : result PIL_image;
  easyocr_lines : result (list string)
}.

(** One entry of [page.get_images(full=True)], with the answers the decoder
    and the operating system give while this entry is processed:
    [doc.extract_image(img[0])["image"]], the name of the file
    [tempfile.NamedTemporaryFile] creates, and whether [f.write] and
    [os.unlink] go through. *)
Record img := {
  extract_image : result image_bytes;
  NamedTemporaryFile : result string;
  f_write : result unit;
  os_unlink : result unit
}.

(** A page of the document: [page.rect], [page.get_text()] and
    [page.get_images(full=True)]. *)
Record page := {
  rect_width : Q;
  rect_height : Q;
  get_text : result string;
  get_images : result (list img)
}.

(** An opened document: [len(doc)] is the length of [pages], and
    [doc.load_page(n)] answers with the [n]-th entry. *)
Record document := { pages : list (result page) }.

(** The [bytes] of an uploaded file: its length and what
    [fitz.open(stream=...)] makes of it. *)
Record pdf_bytes := {
  pdf_len : N;
  fitz_open : result document
}.

Record uploaded_file := {
  name : string;
  getvalue : pdf_bytes
}.

(** The handle [easyocr.Reader(['en'])]; the global [reader] is [None] when
    its construction failed. *)
Inductive Reader := easyocr_Reader.

(** ** The outside world *)

(** Calls whose effect is visible outside the program, in the order they
    are made. *)
Inductive event :=
  | st_progress (value : Q)             (* progress_bar = st.progress(0) *)
  | st_empty                            (* status_text = st.empty() *)
  | progress_bar_progress (value : Q)   (* progress_bar.progress(progress) *)
  | status_text_text (s : string)       (* status_text.text(...) *)
  | progress_bar_empty
  | status_text_empty
  | doc_load_page (page_num : nat)
  | doc_close
  | file_create (path : string)         (* NamedTemporaryFile(delete=False) *)
  | file_write (path : string) (b : image_bytes)
  | reader_readtext (path : string)
  | unlink (path : string) (removed : bool)
  | logger_error (msg : string)
  | st_error (msg : string).

(** The transient files left by a trace: a created file is empty until it
    is written, and is gone once [os.unlink] went through. *)
Definition fs_step (fs : gmap string (option image_bytes)) (e : event)
  : gmap string (option image_bytes) :=
  match e with
  | file_create path => <[path := None]> fs
  | file_write path b => <[path := Some b]> fs
  | unlink path true => delete path fs
  | _ => fs
  end.

Definition fs_of (evs : list event) : gmap string (option image_bytes) :=
  fold_left fs_step evs ∅.

(** ** Program state and control *)

(** The three lists [process_pdf] appends to, the entries written to the
    zip archive, and the trace. *)
Record state := State {
  markdown : list string;
  errors : list string;
  warnings : list string;
  zipf : list (string * string);
  events : list event
}.

(** How a statement ends: normally, by an exception, or by [continue]. *)
Inductive outcome (A : Type) : Type :=
  | Return (a : A)
  | Raise (e : string)
  | Continue.
Arguments Return {A} a.
Arguments Raise {A} e.
Arguments Continue {A}.

Definition py (A : Type) : Type := state → outcome A * state.

#[global] Instance py_ret : MRet py := λ A a s, (Return a, s).

#[global] Instance py_bind : MBind py := λ A B f m s,
  match m s with
  | (Return a, s') => f a s'
  | (Raise e, s') => (Raise e, s')
  | (Continue, s') => (Continue, s')
  end.

Definition raise {A} (e : string) : py A := λ s, (Raise e, s).

Definition continue {A} : py A := λ s, (Continue, s).

(** [try: m  except Exception as e: h e] *)
Definition try_except {A} (m : py A) (h : string → py A) : py A := λ s,
  match m s with
  | (Raise e, s') => h e s'
  | r => r
  end.

(** [try: m  finally: fin] *)
Definition try_finally {A} (m : py A) (fin : py unit) : py A := λ s,
  let '(o, s') := m s in
  match fin s' with
  | (Return _, s'') => (o, s'')
  | (Raise e, s'') => (Raise e, s'')
  | (Continue, s'') => (Continue, s'')
  end.

(** [for x in l: body x]; a [continue] in the body ends the iteration. *)
Fixpoint for_each {A} (body : A → py unit) (l : list A) : py unit := λ s,
  match l with
  | [] => (Return tt, s)
  | x :: l' =>
      match body x s with
      | (Raise e, s') => (Raise e, s')
      | (_, s') => for_each body l' s'
      end
  end.

(** [if b: m] *)
Definition when (b : bool) (m : py unit) : py unit :=
  if b then m else mret tt.

(** The value or the exception of a library call. *)
Definition call {A} (r : result A) : py A :=
  match r with
  | Ok a => mret a
  | Err msg => raise msg
  end.

Definition emit (e : event) : py unit := λ s,
  (Return tt, State (markdown s) (errors s) (warnings s) (zipf s) (events s ++ [e])).

Definition markdown_append (x : string) : py unit := λ s,
  (Return tt, State (markdown s ++ [x]) (errors s) (warnings s) (zipf s) (events s)).

Definition markdown_extend (l : list string) : py unit := λ s,
  (Return tt, State (markdown s ++ l) (errors s) (warnings s) (zipf s) (events s)).

Definition errors_append (x : string) : py unit := λ s,
  (Return tt, State (markdown s) (errors s ++ [x]) (warnings s) (zipf s) (events s)).

Definition warnings_append (x : string) : py unit := λ s,
  (Return tt, State (markdown s) (errors s) (warnings s ++ [x]) (zipf s) (events s)).

(** [markdown = []; errors = []; warnings = []] *)
Definition fresh_lists : py unit := λ s,
  (Return tt, State [] [] [] (zipf s) (events s)).

Definition get_state : py state := λ s, (Return s, s).

(** [zipf.writestr(filename, data)] *)
Definition zipf_writestr (filename data : string) : py unit := λ s,
  (Return tt, State (markdown s) (errors s) (warnings s)
                    (zipf s ++ [(filename, data)]) (events s)).

(** ** [app.py] *)

Definition MAX_PDF_SIZE_MB : N := 50.
Definition MAX_IMAGE_SIZE_MB : N := 10.
Definition MAX_PAGE_PIXELS : Q := 10000000.

(** [f"{n / (1024 * 1024):.1f}"] for the length [n] of a buffer: the
    quotient is exact in binary floating point, and the formatting rounds
    it to one decimal, ties to even. *)
Definition format_mb_1f (n : N) : string :=
  let q := (10 * n / (1024 * 1024))%N in
  let r := (10 * n mod (1024 * 1024))%N in
  let tenths :=
    if (2 * r <? 1024 * 1024)%N then q
    else if (1024 * 1024 <? 2 * r)%N then (q + 1)%N
    else if N.even q then q else (q + 1)%N in
  str (N.to_nat (tenths / 10)) +:+ "." +:+ str (N.to_nat (tenths mod 10)).

Definition validate_pdf_size (pdf : pdf_bytes) : py unit :=
  if (MAX_PDF_SIZE_MB * (1024 * 1024) <? pdf_len pdf)%N
  then raise ("PDF file too large (max " +:+ str (N.to_nat MAX_PDF_SIZE_MB)
              +:+ "MB allowed, got " +:+ format_mb_1f (pdf_len pdf) +:+ "MB)")
  else mret tt.

Definition validate_image (image : image_bytes) : py bool :=
  if (MAX_IMAGE_SIZE_MB * 1024 * 1024 <? image_len image)%N
  then raise ("Image too large (max " +:+ str (N.to_nat MAX_IMAGE_SIZE_MB)
              +:+ "MB allowed)")
  else
    try_except
      (img ← call (Image_open image);
       mret (bool_decide (format img ∈ ["PNG"; "JPEG"; "TIFF"])))
      (λ _, mret false).

(** [doc.load_page(page_num)] *)
Definition load_page (doc : document) (page_num : nat) : py page :=
  emit (doc_load_page page_num);;
  match pages doc !! page_num with
  | Some r => call r
  | None => raise "page not in document"
  end.

(** [with tempfile.NamedTemporaryFile(delete=False, suffix=".png") as f:
       f.write(image_bytes); temp_path = f.name] *)
Definition write_temp (i : img) (image : image_bytes) : py string :=
  f_name ← call (NamedTemporaryFile i);
  emit (file_create f_name);;
  call (f_write i);;
  emit (file_write f_name image);;
  mret f_name.

(** [reader.readtext(temp_path, detail=0)]: the engine reads the file. *)
Definition readtext (r : Reader) (temp_path : string) : py (list string) :=
  emit (reader_readtext temp_path);;
  s ← get_state;
  match fs_of (events s) !! temp_path with
  | Some (Some image) => call (easyocr_lines image)
  | _ => raise ("cannot read " +:+ temp_path)
  end.

(** [os.unlink(temp_path)] *)
Definition do_unlink (i : img) (temp_path : string) : py unit :=
  match os_unlink i with
  | Ok _ => emit (unlink temp_path true)
  | Err msg => emit (unlink temp_path false);; raise msg
  end.

(** The body of [for img_idx, img in enumerate(img_list)] (lines 95-127). *)
Definition process_image (reader : option Reader) (page_num : nat)
    (entry : nat * img) : py unit :=
  let '(img_idx, i) := entry in
  try_except
    (image ← call (extract_image i);
     valid ← validate_image image;
     (if negb valid then
        warnings_append ("⚠️ Skipped image " +:+ str (img_idx + 1) +:+ " on page "
                         +:+ str (page_num + 1) +:+ ": Invalid format or corrupted");;
        continue
      else mret tt);;
     temp_path ← write_temp i image;
     try_finally
       (try_except
          (match reader with
           | None => raise "OCR engine not initialized"
           | Some r =>
               ocr_results ← readtext r temp_path;
               if truthy ocr_results then
                 let ocr_text := join " " ocr_results in
                 markdown_append ("**Image " +:+ str (img_idx + 1) +:+ " OCR:**" +:+ nl
                                  +:+ ocr_text +:+ nl)
               else
                 warnings_append ("⚠️ No text found in image " +:+ str (img_idx + 1)
                                  +:+ " on page " +:+ str (page_num + 1))
           end)
          (λ e, errors_append ("❌ OCR Error for image " +:+ str (img_idx + 1)
                               +:+ " on page " +:+ str (page_num + 1) +:+ ": " +:+ e)))
       (try_except (do_unlink i temp_path) (λ _, mret tt)))
    (λ e, errors_append ("❌ Failed to process image " +:+ str (img_idx + 1)
                         +:+ " on page " +:+ str (page_num + 1) +:+ ": " +:+ e)).

(** The body of [for page_num in range(total_pages)] (lines 70-130).  The
    fraction [(page_num + 1) / total_pages] and the page's area are floats
    in Python; they are kept as exact rationals here. *)
Definition process_page (reader : option Reader) (doc : document)
    (total_pages page_num : nat) : py unit :=
  let progress := (Z.of_nat (page_num + 1) # Pos.of_nat total_pages)%Q in
  emit (progress_bar_progress progress);;
  emit (status_text_text ("Processing page " +:+ str (page_num + 1) +:+ "/"
                          +:+ str total_pages));;
  try_except
    (page ← load_page doc page_num;
     when (negb (Qle_bool (rect_width page * rect_height page) MAX_PAGE_PIXELS))
       (warnings_append ("⚠️ Page " +:+ str (page_num + 1)
                         +:+ " too large, might affect processing quality"));;
     try_except
       (text ← call (get_text page);
        markdown_append ("## Page " +:+ str (page_num + 1) +:+ nl +:+ nl +:+ text))
       (λ e, errors_append ("❌ Failed to extract text from page "
                            +:+ str (page_num + 1) +:+ ": " +:+ e);;
             continue);;
     img_list ← call (get_images page);
     when (truthy img_list)
       (markdown_append ("### Images on Page " +:+ str (page_num + 1)));;
     for_each (process_image reader page_num) (enumerate img_list))
    (λ e, errors_append ("❌ Failed to process page " +:+ str (page_num + 1)
                         +:+ ": " +:+ e)).

Definition process_pdf (reader : option Reader) (pdf : pdf_bytes) : py string :=
  doc ← try_except
          (validate_pdf_size pdf;; call (fitz_open pdf))
          (λ e, let error_msg := "Failed to open PDF: " +:+ e in
                emit (logger_error error_msg);;
                raise error_msg);
  fresh_lists;;
  emit (st_progress 0);;
  emit st_empty;;
  let total_pages := length (pages doc) in
  try_finally
    (for_each (process_page reader doc total_pages) (range total_pages))
    (emit progress_bar_empty;; emit status_text_empty;; emit doc_close);;
  s ← get_state;
  when (truthy (errors s) || truthy (warnings s))
    (markdown_append (nl +:+ "## Processing Summary");;
     when (truthy (errors s))
       (markdown_append (nl +:+ "### Errors");; markdown_extend (errors s));;
     when (truthy (warnings s))
       (markdown_append (nl +:+ "### Warnings");; markdown_extend (warnings s)));;
  s ← get_state;
  mret (join (nl +:+ nl) (markdown s)).

Section Batch.

(** [os.path.splitext], which belongs to the platform. *)
Variable splitext : string → string * string.

(** The body of [for i, uploaded_file in enumerate(uploaded_files)]
    (lines 168-176). *)
Definition process_file (reader : option Reader) (entry : nat * uploaded_file)
  : py unit :=
  let '(i, f) := entry in
  try_except
    (md_content ← process_pdf reader (getvalue f);
     when (truthy_str md_content)
       (let filename := (splitext (name f)).1 +:+ ".md" in
        zipf_writestr filename md_content))
    (λ e, emit (st_error ("Error processing " +:+ name f +:+ ": " +:+ e));;
          emit (logger_error ("Error processing " +:+ name f +:+ ": " +:+ e))).

(** [if st.button("Process Files") and uploaded_files: ...] *)
Definition Process_Files (reader : option Reader) (button : bool)
    (uploaded_files : list uploaded_file) : py unit :=
  when (button && truthy uploaded_files)
    (for_each (process_file reader) (enumerate uploaded_files)).

End Batch.

(** ** What a run adds to the state *)

(** The lists are only ever appended to, so a run is described by what it
    adds.  [ε] is the state with nothing in it and [s ⊕ d] is [s] followed
    by [d]. *)
Definition ε : state := State [] [] [] [] [].

Definition state_app (s d : state) : state :=
  State (markdown s ++ markdown d) (errors s ++ errors d)
        (warnings s ++ warnings d) (zipf s ++ zipf d) (events s ++ events d).

Infix "⊕" := state_app (at level 50, left associativity).

(** A state that holds only diagnostics and trace entries. *)
Definition added (md er wa : list string) (ev : list event) : state :=
  State md er wa [] ev.

Definition raises {A} (o : outcome A) : bool :=
  match o with Raise _ => true | _ => false end.

(** The calls to the OCR engine in a trace, the calls that create or
    write a transient file, and the fractions notified to the progress
    bar. *)
Definition is_readtext (e : event) : bool :=
  match e with reader_readtext _ => true | _ => false end.

Definition is_file_event (e : event) : bool :=
  match e with file_create _ | file_write _ _ => true | _ => false end.

Definition progress_values (evs : list event) : list Q :=
  omap (λ e, match e with progress_bar_progress v => Some v | _ => None end) evs.

(** ** The diagnostics, as the program words them *)

Definition page_section (page_num : nat) (text : string) : string :=
  "## Page " +:+ str (page_num + 1) +:+ nl +:+ nl +:+ text.

Definition images_heading (page_num : nat) : string :=
  "### Images on Page " +:+ str (page_num + 1).

Definition ocr_block (img_idx : nat) (ocr_results : list string) : string :=
  "**Image " +:+ str (img_idx + 1) +:+ " OCR:**" +:+ nl
  +:+ join " " ocr_results +:+ nl.

Definition warn_skipped (page_num img_idx : nat) : string :=
  "⚠️ Skipped image " +:+ str (img_idx + 1) +:+ " on page "
  +:+ str (page_num + 1) +:+ ": Invalid format or corrupted".

Definition warn_no_text (page_num img_idx : nat) : string :=
  "⚠️ No text found in image " +:+ str (img_idx + 1) +:+ " on page "
  +:+ str (page_num + 1).

Definition warn_page_large (page_num : nat) : string :=
  "⚠️ Page " +:+ str (page_num + 1) +:+ " too large, might affect processing quality".

Definition err_ocr (page_num img_idx : nat) (e : string) : string :=
  "❌ OCR Error for image " +:+ str (img_idx + 1) +:+ " on page "
  +:+ str (page_num + 1) +:+ ": " +:+ e.

Definition err_image (page_num img_idx : nat) (e : string) : string :=
  "❌ Failed to process image " +:+ str (img_idx + 1) +:+ " on page "
  +:+ str (page_num + 1) +:+ ": " +:+ e.

Definition err_text (page_num : nat) (e : string) : string :=
  "❌ Failed to extract text from page " +:+ str (page_num + 1) +:+ ": " +:+ e.

Definition err_page (page_num : nat) (e : string) : string :=
  "❌ Failed to process page " +:+ str (page_num + 1) +:+ ": " +:+ e.

Definition msg_too_large : string := "Image too large (max 10MB allowed)".
Definition msg_no_engine : string := "OCR engine not initialized".

(** The first two notifications of a page's iteration. *)
Definition page_start (total_pages page_num : nat) : list event :=
  [progress_bar_progress (Z.of_nat (page_num + 1) # Pos.of_nat total_pages);
   status_text_text ("Processing page " +:+ str (page_num + 1) +:+ "/"
                     +:+ str total_pages)].

Definition page_large (p : page) : bool :=
  negb (Qle_bool (rect_width p * rect_height p) MAX_PAGE_PIXELS).

(** ** The image gate, as [validate_image] decides it *)

Definition oversize (image : image_bytes) : bool :=
  (MAX_IMAGE_SIZE_MB * 1024 * 1024 <? image_len image)%N.

Definition allowed_format (image : image_bytes) : bool :=
  match Image_open image with
  | Ok img => bool_decide (format img ∈ ["PNG"; "JPEG"; "TIFF"])
  | Err _ => false
  end.

(** The gate turns the image away: too large, not decodable, or of a
    format outside PNG, JPEG and TIFF. *)
Definition gate_rejects (image : image_bytes) : bool :=
  oversize image || negb (allowed_format image).

Definition admitted (image : image_bytes) : bool :=
  negb (oversize image) && allowed_format image.

(** ** What each level of the program adds *)

(** The remaining definitions describe, level by level, what a run adds to
    the state; the theorems of the next part prove that the program adds
    exactly that, from every state. *)

(** Whether [os.unlink] removed the file. *)
Definition unlinked (i : img) : bool :=
  match os_unlink i with Ok _ => true | Err _ => false end.

(** What the recognition step yields: the engine's lines, the engine's
    exception, or the [ValueError] raised when there is no engine. *)
Definition recognition (reader : option Reader) (image : image_bytes)
  : result (list string) :=
  match reader with
  | None => Err msg_no_engine
  | Some _ => easyocr_lines image
  end.

(** An admitted image whose transient file [p] was written. *)
Definition ocr_added (reader : option Reader) (page_num img_idx : nat) (i : img)
    (image : image_bytes) (p : string) : state :=
  let evs := [file_create p; file_write p image]
             ++ (if reader is Some _ then [reader_readtext p] else [])
             ++ [unlink p (unlinked i)] in
  match recognition reader image with
  | Ok [] => added [] [] [warn_no_text page_num img_idx] evs
  | Ok ocr_results => added [ocr_block img_idx ocr_results] [] [] evs
  | Err e => added [] [err_ocr page_num img_idx e] [] evs
  end.

Definition image_added (reader : option Reader) (page_num : nat)
    (entry : nat * img) : state :=
  let '(img_idx, i) := entry in
  match extract_image i with
  | Err e => added [] [err_image page_num img_idx e] [] []
  | Ok image =>
      if oversize image then
        added [] [err_image page_num img_idx msg_too_large] [] []
      else if negb (allowed_format image) then
        added [] [] [warn_skipped page_num img_idx] []
      else
        match NamedTemporaryFile i, f_write i with
        | Err e, _ => added [] [err_image page_num img_idx e] [] []
        | Ok p, Err e => added [] [err_image page_num img_idx e] [] [file_create p]
        | Ok p, Ok _ => ocr_added reader page_num img_idx i image p
        end
  end.

(** The only way an iteration of the image loop ends early is the
    [continue] after a rejected format. *)
Definition image_result (i : img) : outcome unit :=
  match extract_image i with
  | Ok image =>
      if negb (oversize image) && negb (allowed_format image)
      then Continue else Return tt
  | Err _ => Return tt
  end.

Definition images_added (reader : option Reader) (page_num : nat)
    (entries : list (nat * img)) : state :=
  foldr (λ entry acc, image_added reader page_num entry ⊕ acc) ε entries.

Definition page_added (reader : option Reader) (doc : document)
    (total_pages page_num : nat) : state :=
  let start := page_start total_pages page_num ++ [doc_load_page page_num] in
  match pages doc !! page_num with
  | None => added [] [err_page page_num "page not in document"] [] start
  | Some (Err e) => added [] [err_page page_num e] [] start
  | Some (Ok p) =>
      let large := if page_large p then [warn_page_large page_num] else [] in
      match get_text p, get_images p with
      | Err e, _ => added [] [err_text page_num e] large start
      | Ok text, Err e =>
          added [page_section page_num text] [err_page page_num e] large start
      | Ok text, Ok img_list =>
          added (page_section page_num text
                 :: if truthy img_list then [images_heading page_num] else [])
                [] large start
          ⊕ images_added reader page_num (enumerate img_list)
      end
  end.

Definition page_result (doc : document) (page_num : nat) : outcome unit :=
  match pages doc !! page_num with
  | Some (Ok p) => if get_text p is Err _ then Continue else Return tt
  | _ => Return tt
  end.

Definition pages_added (reader : option Reader) (doc : document)
    (total_pages : nat) (page_nums : list nat) : state :=
  foldr (λ page_num acc, page_added reader doc total_pages page_num ⊕ acc)
        ε page_nums.

(** The [Processing Summary] section. *)
Definition summary (errors warnings : list string) : list string :=
  if truthy errors || truthy warnings then
    [nl +:+ "## Processing Summary"]
    ++ (if truthy errors then (nl +:+ "### Errors") :: errors else [])
    ++ (if truthy warnings then (nl +:+ "### Warnings") :: warnings else [])
  else [].

(** The first three lines of [process_pdf]: the size check, then the
    decoder. *)
Definition pdf_oversize (pdf : pdf_bytes) : bool :=
  (MAX_PDF_SIZE_MB * (1024 * 1024) <? pdf_len pdf)%N.

Definition open_pdf (pdf : pdf_bytes) : result document :=
  if pdf_oversize pdf then
    Err ("PDF file too large (max " +:+ str (N.to_nat MAX_PDF_SIZE_MB)
         +:+ "MB allowed, got " +:+ format_mb_1f (pdf_len pdf) +:+ "MB)")
  else fitz_open pdf.

(** The blocks of the document [doc], before they are joined. *)
Definition document_added (reader : option Reader) (doc : document) : state :=
  pages_added reader doc (length (pages doc)) (range (length (pages doc))).

Definition document_markdown (reader : option Reader) (doc : document)
  : list string :=
  let d := document_added reader doc in
  markdown d ++ summary (errors d) (warnings d).

(** The calls [process_pdf] makes for a document that opened. *)
Definition document_events (reader : option Reader) (doc : document) : list event :=
  [st_progress 0; st_empty] ++ events (document_added reader doc)
  ++ [progress_bar_empty; status_text_empty; doc_close].

(** What [process_pdf] returns or raises. *)
Definition rendered (reader : option Reader) (pdf : pdf_bytes) : outcome string :=
  match open_pdf pdf with
  | Err e => Raise ("Failed to open PDF: " +:+ e)
  | Ok doc => Return (join (nl +:+ nl) (document_markdown reader doc))
  end.

(** ** Observations on a trace *)

(** The calls made while one image is processed, and while one page is. *)
Definition image_event (e : event) : bool :=
  match e with
  | file_create _ | file_write _ _ | reader_readtext _ | unlink _ _ => true
  | _ => false
  end.

Definition page_event (e : event) : bool :=
  match e with
  | progress_bar_progress _ | status_text_text _ | doc_load_page _ => true
  | _ => image_event e
  end.

(** The failures shown to the user by [st.error]. *)
Definition st_errors (evs : list event) : list string :=
  omap (λ e, if e is st_error msg then Some msg else None) evs.

(** ** The outcomes of a batch *)

Section BatchOutcomes.

Variable splitext : string → string * string.
Variable reader : option Reader.

(** The archive entry of an uploaded file, if it gets one. *)
Definition packaged (f : uploaded_file) : option (string * string) :=
  match rendered reader (getvalue f) with
  | Return md_content =>
      if truthy_str md_content
      then Some ((splitext (name f)).1 +:+ ".md", md_content)
      else None
  | _ => None
  end.

(** The failure reported for an uploaded file, if one is. *)
Definition reported (f : uploaded_file) : option string :=
  match rendered reader (getvalue f) with
  | Raise e => Some ("Error processing " +:+ name f +:+ ": " +:+ e)
  | _ => None
  end.

(** The uploaded file leaves neither an archive entry nor a report. *)
Definition dropped (f : uploaded_file) : bool :=
  match packaged f, reported f with
  | None, None => true
  | _, _ => false
  end.

End BatchOutcomes.

(** ** Images and pages, as the statements see them *)

(** The same entry under another answer of [os.unlink]. *)
Definition with_unlink (r : result unit) (i : img) : img :=
  {| extract_image := extract_image i;
     NamedTemporaryFile := NamedTemporaryFile i;
     f_write := f_write i;
     os_unlink := r |}.

(** The image makes it through the gate and into a transient file. *)
Definition written (i : img) : option (image_bytes * string) :=
  match extract_image i, NamedTemporaryFile i, f_write i with
  | Ok image, Ok p, Ok _ => if admitted image then Some (image, p) else None
  | _, _, _ => None
  end.

(** An OCR block is appended for the image. *)
Definition yields_text (reader : option Reader) (i : img) : bool :=
  match written i with
  | Some (image, _) =>
      if recognition reader image is Ok ocr_results then truthy ocr_results
      else false
  | None => false
  end.

(** An exception raised for the image reaches one of the two handlers of
    the image loop that append an error (lines 119-120 and 126-127): the
    decoder cannot extract the image, the gate raises on its size, the
    transient file cannot be created or written, or recognition raises. *)
Definition raises_into_handler (reader : option Reader) (i : img) : bool :=
  match extract_image i with
  | Err _ => true
  | Ok image =>
      oversize image
      || (allowed_format image
          && match NamedTemporaryFile i, f_write i with
             | Ok _, Ok _ => if recognition reader image is Err _ then true else false
             | _, _ => true
             end)
  end.

(** [os.unlink] is reached and raises (lines 122-125): the image got its
    transient file and the file cannot be deleted. *)
Definition deletion_fails (i : img) : bool :=
  match written i, os_unlink i with
  | Some _, Err _ => true
  | _, _ => false
  end.

(** Processing the image fails: one of the calls made for it raises, the
    deletion of its transient file included. *)
Definition image_fails (reader : option Reader) (i : img) : bool :=
  raises_into_handler reader i || deletion_fails i.

(** The text of a page, when the page loads and its text is extracted. *)
Definition page_text (doc : document) (page_num : nat) : option string :=
  match pages doc !! page_num with
  | Some (Ok p) => if get_text p is Ok text then Some text else None
  | _ => None
  end.

(** The images the loop of a page goes through: those of a page that
    loads, whose text is extracted and whose images are listed. *)
Definition page_images (doc : document) (page_num : nat) : list img :=
  match pages doc !! page_num with
  | Some (Ok p) =>
      match get_text p, get_images p with
      | Ok _, Ok img_list => img_list
      | _, _ => []
      end
  | _ => []
  end.

(** [os.path.splitext] on POSIX ([genericpath._splitext] with separator
    [/]): the extension starts at the last dot of the last component,
    leading dots aside. *)
Fixpoint rfind_from (c : Ascii.ascii) (s : string) (i : Z) (found : Z) : Z :=
  match s with
  | EmptyString => found
  | String a s' => rfind_from c s' (i + 1) (if Ascii.eqb a c then i else found)
  end.

Definition rfind (c : Ascii.ascii) (s : string) : Z := rfind_from c s 0 (-1).

Fixpoint all_dots (s : string) : bool :=
  match s with
  | EmptyString => true
  | String a s' => Ascii.eqb a "."%char && all_dots s'
  end.

Definition posix_splitext (p : string) : string * string :=
  let sepIndex := rfind "/"%char p in
  let dotIndex := rfind "."%char p in
  if (sepIndex <? dotIndex)%Z
     && negb (all_dots (String.substring (Z.to_nat (sepIndex + 1))
                                  (Z.to_nat (dotIndex - (sepIndex + 1))) p))
  then (String.substring 0 (Z.to_nat dotIndex) p,
        String.substring (Z.to_nat dotIndex) (String.length p - Z.to_nat dotIndex) p)
  else (p, "").

(** ** Kinds of blocks *)

(** [s.startswith(pre)] *)
Fixpoint startswith (pre s : string) : bool :=
  match pre, s with
  | EmptyString, _ => true
  | String a pre', String b s' => Ascii.eqb a b && startswith pre' s'
  | String _ _, EmptyString => false
  end.

Definition is_page_section (b : string) : bool := startswith "## Page " b.
Definition is_images_heading (b : string) : bool := startswith "### Images on Page " b.
Definition is_ocr_block (b : string) : bool := startswith "**Image " b.
Definition is_error_line (b : string) : bool := startswith "❌ " b.
Definition is_warning_line (b : string) : bool := startswith "⚠️ " b.

(** Every block an image adds is an OCR block, every error an error line
    and every warning a warning line. *)
Definition well_worded (d : state) : Prop :=
  Forall (λ b, is_ocr_block b = true) (markdown d)
  ∧ Forall (λ b, is_error_line b = true) (errors d)
  ∧ Forall (λ b, is_warning_line b = true) (warnings d).

(** The page sections and the image headings of a document, as the pages
    give them: one section per page whose text is extracted, one heading
    per page whose image loop has something to go through. *)
Definition page_sections (doc : document) : list string :=
  omap (λ page_num, page_section page_num <$> page_text doc page_num)
       (range (length (pages doc))).

Definition images_headings (doc : document) : list string :=
  omap (λ page_num, if truthy (page_images doc page_num)
                    then Some (images_heading page_num) else None)
       (range (length (pages doc))).

(** ** Sample inputs *)

Module Sample.

Definition image (fmt : string) (lines : result (list string)) : image_bytes :=
  {| image_len := 2048;
     Image_open := Ok {| format := fmt |};
     easyocr_lines := lines |}.

(** One byte more than ten mebibytes. *)
Definition huge_image : image_bytes :=
  {| image_len := 10 * 1024 * 1024 + 1;
     Image_open := Ok {| format := "PNG" |};
     easyocr_lines := Ok ["BIG"] |}.

Definition entry (b : image_bytes) (path : string) : img :=
  {| extract_image := Ok b;
     NamedTemporaryFile := Ok path;
     f_write := Ok tt;
     os_unlink := Ok tt |}.

Definition a4 (text : result string) (imgs : list img) : result page :=
  Ok {| rect_width := 595; rect_height := 842;
        get_text := text; get_images := Ok imgs |}.

Definition pdf (ps : list (result page)) : pdf_bytes :=
  {| pdf_len := 4096; fitz_open := Ok {| pages := ps |} |}.

Definition upload (n : string) (b : pdf_bytes) : uploaded_file :=
  {| name := n; getvalue := b |}.

Definition world : image_bytes := image "PNG" (Ok ["WORLD"]).

(** Two pages: "Hello" with one image that reads "WORLD", then a page
    whose text cannot be extracted. *)
Definition two_pages : pdf_bytes :=
  pdf [a4 (Ok "Hello") [entry world "/tmp/tmp1.png"]; a4 (Err "boom") []].

Definition no_pages : pdf_bytes := pdf [].

Definition unreadable : pdf_bytes :=
  {| pdf_len := 4096; fitz_open := Err "cannot open broken document" |}.

(** One page with one GIF, which the gate turns away. *)
Definition gif_page : pdf_bytes :=
  pdf [a4 (Ok "Cover") [entry (image "GIF" (Ok ["LOGO"])) "/tmp/tmp2.png"]].

(** One page with three images, the second of them too large. *)
Definition three_images : list img :=
  [entry (image "PNG" (Ok ["ONE"])) "/tmp/a.png";
   entry huge_image "/tmp/b.png";
   entry (image "JPEG" (Ok ["THREE"])) "/tmp/c.png"].

(** One page, "Figures", with the three images of [three_images]. *)
Definition figures_page : page :=
  {| rect_width := 595; rect_height := 842;
     get_text := Ok "Figures"; get_images := Ok three_images |}.

Definition figures : document := {| pages := [Ok figures_page] |}.

Definition figures_pdf : pdf_bytes := {| pdf_len := 4096; fitz_open := Ok figures |}.

(** An entry whose transient file cannot be deleted. *)
Definition sticky : img := with_unlink (Err "file in use") (entry world "/tmp/tmp3.png").

End Sample.

(** * The rest of [app.py] *)

(** [get_reader] (lines 23-29): the constructor [easyocr.Reader(['en'])]
    answers with a handle or raises; a failure is shown with [st.error] and
    turned into [None]. *)
Definition get_reader (easyocr_Reader : result Reader) : py (option Reader) :=
  try_except
    (r ← call easyocr_Reader; mret (Some r))
    (λ e, emit (st_error ("Failed to initialize EasyOCR: " +:+ e));;
          mret None).

(** ** Further observations *)

(** The number of blocks, errors and warnings recorded so far. *)
Definition records (s : state) : nat :=
  length (markdown s) + length (errors s) + length (warnings s).

(** The transient file of an image that got one written. *)
Definition written_path (i : img) : option string := snd <$> written i.

(** Once the file of the entry exists, writing it and deleting it go
    through. *)
Definition tidy (i : img) : bool :=
  match f_write i, os_unlink i with
  | Ok _, Ok _ => true
  | _, _ => false
  end.

(** The document opens and has at least one page. *)
Definition opens_with_pages (pdf : pdf_bytes) : bool :=
  match open_pdf pdf with
  | Ok doc => truthy (pages doc)
  | Err _ => false
  end.

Definition fails_to_open (pdf : pdf_bytes) : bool :=
  if open_pdf pdf is Err _ then true else false.

(** The same page under another [page.rect]. *)
Definition with_rect (w h : Q) (p : page) : page :=
  {| rect_width := w; rect_height := h;
     get_text := get_text p; get_images := get_images p |}.

(** More sample inputs. *)
Module Sample2.

(** Fifty mebibytes and one byte. *)
Definition oversize_pdf : pdf_bytes :=
  {| pdf_len := 50 * 1024 * 1024 + 1; fitz_open := Ok {| pages := [] |} |}.

(** A page that the decoder cannot load, between two that it can. *)
Definition torn : document :=
  {| pages := [Sample.a4 (Ok "One") []; Err "bad page tree"; Sample.a4 (Ok "Three") []] |}.

Definition torn_pdf : pdf_bytes := {| pdf_len := 4096; fitz_open := Ok torn |}.

(** A page whose text is extracted but whose images cannot be listed. *)
Definition no_listing_page : page :=
  {| rect_width := 595; rect_height := 842;
     get_text := Ok "Body"; get_images := Err "xref table damaged" |}.

Definition no_listing : document := {| pages := [Ok no_listing_page] |}.

Definition no_listing_pdf : pdf_bytes :=
  {| pdf_len := 4096; fitz_open := Ok no_listing |}.

(** A poster of 5000 by 4000 points. *)
Definition poster_page : page :=
  {| rect_width := 5000; rect_height := 4000;
     get_text := Ok "Poster"; get_images := Ok [] |}.

(** An entry whose transient file is created but cannot be written. *)
Definition disk_full : img :=
  {| extract_image := Ok Sample.world;
     NamedTemporaryFile := Ok "/tmp/tmp4.png";
     f_write := Err "No space left on device";
     os_unlink := Ok tt |}.

End Sample2.

(** * Properties *)

Arguments fs_of : simpl never.

Ltac state_eq :=
  unfold state_app, added; cbn; rewrite ?app_nil_r, <- ?app_assoc; reflexivity.

(** ** States *)

Lemma state_app_assoc s d1 d2 : s ⊕ d1 ⊕ d2 = s ⊕ (d1 ⊕ d2).
Proof. unfold state_app; cbn. by rewrite <- !app_assoc. Qed.

Lemma state_app_empty_r s : s ⊕ ε = s.
Proof. destruct s; unfold state_app; cbn. by rewrite !app_nil_r. Qed.

Lemma state_app_empty_l d : ε ⊕ d = d.
Proof. by destruct d. Qed.

Lemma fs_of_snoc l e : fs_of (l ++ [e]) = fs_step (fs_of l) e.
Proof. unfold fs_of. by rewrite fold_left_app. Qed.

Lemma fs_of_app l1 l2 : fs_of (l1 ++ l2) = fold_left fs_step l2 (fs_of l1).
Proof. unfold fs_of. by rewrite fold_left_app. Qed.

(** ** Loops *)

Lemma enumerate_from_app {A} i (l1 l2 : list A) :
  enumerate_from i (l1 ++ l2)
  = enumerate_from i l1 ++ enumerate_from (i + length l1) l2.
Proof.
  revert i. induction l1 as [|x l1 IH]; intros i; cbn.
  - by rewrite Nat.add_0_r.
  - by rewrite IH, Nat.add_succ_r.
Qed.

(** A loop whose body extends the state without raising extends it by
    what the iterations add, in order. *)
Lemma for_each_run {A} (body : A → py unit) (o : A → outcome unit)
    (d : A → state) l s :
  (∀ x s, body x s = (o x, s ⊕ d x)) →
  (∀ x, raises (o x) = false) →
  for_each body l s = (Return tt, s ⊕ foldr (λ x acc, d x ⊕ acc) ε l).
Proof.
  intros Hb Ho. revert s. induction l as [|x l IH]; intros s; cbn.
  - by rewrite state_app_empty_r.
  - rewrite Hb. specialize (Ho x).
    destruct (o x); [| done |]; by rewrite IH, state_app_assoc.
Qed.

Lemma for_each_cons {A} (body : A → py unit) x l s :
  for_each body (x :: l) s
  = match body x s with
    | (Raise e, s') => (Raise e, s')
    | (_, s') => for_each body l s'
    end.
Proof. done. Qed.

Arguments for_each : simpl never.
Arguments enumerate : simpl never.

(** ** One image *)

Lemma validate_image_run image s :
  validate_image image s
  = (if oversize image then Raise msg_too_large
     else Return (allowed_format image), s).
Proof.
  unfold validate_image, oversize, allowed_format.
  destruct (_ <? _)%N; [reflexivity|].
  unfold try_except, mbind, py_bind. by destruct (Image_open image).
Qed.

Lemma process_image_run reader page_num entry s :
  process_image reader page_num entry s
  = (image_result entry.2, s ⊕ image_added reader page_num entry).
Proof.
  destruct entry as [idx i].
  unfold process_image, image_result, image_added, write_temp, try_except,
    try_finally, do_unlink, readtext, ocr_added, recognition, unlinked,
    mbind, py_bind.
  cbn. destruct (extract_image i) as [image|e]; cbn; [|f_equal; state_eq].
  rewrite validate_image_run.
  destruct (oversize image); cbn; [f_equal; state_eq|].
  destruct (allowed_format image); cbn; [|f_equal; state_eq].
  destruct (NamedTemporaryFile i) as [p|e]; cbn; [|f_equal; state_eq].
  destruct (f_write i) as [[]|e]; cbn; [|f_equal; state_eq].
  destruct reader as [r|]; cbn.
  - rewrite !fs_of_snoc. cbn [fs_step]. rewrite lookup_insert_eq.
    destruct (easyocr_lines image) as [[|x l]|e]; cbn;
      destruct (os_unlink i); cbn; f_equal; state_eq.
  - destruct (os_unlink i); cbn; f_equal; state_eq.
Qed.

Lemma image_result_no_raise i : raises (image_result i) = false.
Proof.
  unfold image_result. destruct (extract_image i); [|done].
  by destruct (_ && _).
Qed.

Lemma process_images_run reader page_num entries s :
  for_each (process_image reader page_num) entries s
  = (Return tt, s ⊕ images_added reader page_num entries).
Proof.
  apply (for_each_run _ (λ entry, image_result entry.2)).
  - intros; apply process_image_run.
  - intros; apply image_result_no_raise.
Qed.

(** ** One page *)

Lemma process_page_run reader doc total_pages page_num s :
  process_page reader doc total_pages page_num s
  = (page_result doc page_num,
     s ⊕ page_added reader doc total_pages page_num).
Proof.
  unfold process_page, page_result, page_added, page_start, load_page,
    try_except, when, mbind, py_bind.
  cbn. destruct (pages doc !! page_num) as [[p|e]|]; cbn;
    [|f_equal; state_eq ..].
  fold (page_large p).
  destruct (get_text p) as [text|e]; cbn.
  - destruct (get_images p) as [img_list|e]; cbn.
    + destruct (page_large p), (truthy img_list); cbn;
        rewrite process_images_run; f_equal;
        rewrite <- state_app_assoc; f_equal; state_eq.
    + destruct (page_large p); cbn; f_equal; state_eq.
  - destruct (page_large p); cbn; f_equal; state_eq.
Qed.

Lemma page_result_no_raise doc page_num : raises (page_result doc page_num) = false.
Proof.
  unfold page_result. destruct (pages doc !! page_num) as [[p|]|]; [|done..].
  by destruct (get_text p).
Qed.

Lemma process_pages_run reader doc total_pages page_nums s :
  for_each (process_page reader doc total_pages) page_nums s
  = (Return tt, s ⊕ pages_added reader doc total_pages page_nums).
Proof.
  apply (for_each_run _ (page_result doc)).
  - intros; apply process_page_run.
  - intros; apply page_result_no_raise.
Qed.

(** Nothing below the batch loop writes to the archive. *)
Lemma zipf_state_app s d : zipf (s ⊕ d) = zipf s ++ zipf d.
Proof. done. Qed.

Lemma zipf_image_added reader page_num entry :
  zipf (image_added reader page_num entry) = [].
Proof.
  destruct entry as [idx i]. unfold image_added, ocr_added.
  repeat case_match; done.
Qed.

Lemma images_added_cons reader page_num entry entries :
  images_added reader page_num (entry :: entries)
  = image_added reader page_num entry ⊕ images_added reader page_num entries.
Proof. done. Qed.

Lemma images_added_app reader page_num l1 l2 :
  images_added reader page_num (l1 ++ l2)
  = images_added reader page_num l1 ⊕ images_added reader page_num l2.
Proof.
  induction l1 as [|entry l1 IH]; cbn [app].
  - by rewrite state_app_empty_l.
  - by rewrite !images_added_cons, IH, state_app_assoc.
Qed.

Lemma pages_added_cons reader doc total_pages n page_nums :
  pages_added reader doc total_pages (n :: page_nums)
  = page_added reader doc total_pages n
    ⊕ pages_added reader doc total_pages page_nums.
Proof. done. Qed.

Lemma pages_added_app reader doc total_pages l1 l2 :
  pages_added reader doc total_pages (l1 ++ l2)
  = pages_added reader doc total_pages l1
    ⊕ pages_added reader doc total_pages l2.
Proof.
  induction l1 as [|n l1 IH]; cbn [app].
  - by rewrite state_app_empty_l.
  - by rewrite !pages_added_cons, IH, state_app_assoc.
Qed.

Lemma zipf_images_added reader page_num entries :
  zipf (images_added reader page_num entries) = [].
Proof.
  induction entries as [|entry l IH]; [done|].
  by rewrite images_added_cons, zipf_state_app, zipf_image_added, IH.
Qed.

Lemma zipf_page_added reader doc total_pages page_num :
  zipf (page_added reader doc total_pages page_num) = [].
Proof.
  unfold page_added.
  repeat case_match; rewrite ?zipf_state_app, ?zipf_images_added; done.
Qed.

Lemma zipf_pages_added reader doc total_pages page_nums :
  zipf (pages_added reader doc total_pages page_nums) = [].
Proof.
  induction page_nums as [|n l IH]; [done|].
  by rewrite pages_added_cons, zipf_state_app, zipf_page_added, IH.
Qed.

(** ** One document *)

Lemma open_pdf_run pdf s :
  (validate_pdf_size pdf;; call (fitz_open pdf)) s
  = (if open_pdf pdf is Ok doc then Return doc
     else if open_pdf pdf is Err e then Raise e else Continue, s).
Proof.
  unfold open_pdf, validate_pdf_size, pdf_oversize, mbind, py_bind.
  destruct (_ <? _)%N; [done|]. by destruct (fitz_open pdf).
Qed.

Lemma process_pdf_opened reader pdf doc s :
  open_pdf pdf = Ok doc →
  process_pdf reader pdf s
  = (Return (join (nl +:+ nl) (document_markdown reader doc)),
     State (document_markdown reader doc)
           (errors (document_added reader doc))
           (warnings (document_added reader doc))
           (zipf s)
           (events s ++ document_events reader doc)).
Proof.
  intros Hopen.
  unfold process_pdf, mbind at 1, py_bind at 1, try_except at 1.
  rewrite open_pdf_run, Hopen.
  unfold try_finally, mbind, py_bind. cbn.
  rewrite process_pages_run.
  fold (document_added reader doc).
  unfold document_markdown, document_events, summary, when.
  pose proof (zipf_pages_added reader doc (length (pages doc))
                (range (length (pages doc)))) as Hz.
  fold (document_added reader doc) in Hz.
  destruct (document_added reader doc) as [md er wa z ev]. cbn in *. subst z.
  destruct (truthy er), (truthy wa); cbn;
    rewrite ?app_nil_r, <- ?app_assoc; cbn; reflexivity.
Qed.

Lemma process_pdf_failed reader pdf e s :
  open_pdf pdf = Err e →
  process_pdf reader pdf s
  = (Raise ("Failed to open PDF: " +:+ e),
     s ⊕ added [] [] [] [logger_error ("Failed to open PDF: " +:+ e)]).
Proof.
  intros Hopen.
  unfold process_pdf, mbind at 1, py_bind at 1, try_except at 1.
  rewrite open_pdf_run, Hopen. cbn. f_equal. state_eq.
Qed.

Lemma process_pdf_result reader pdf s :
  (process_pdf reader pdf s).1 = rendered reader pdf.
Proof.
  unfold rendered. destruct (open_pdf pdf) as [doc|e] eqn:Hopen.
  - by rewrite (process_pdf_opened _ _ doc).
  - by rewrite (process_pdf_failed _ _ e).
Qed.

(** ** Traces *)

Lemma events_state_app s d : events (s ⊕ d) = events s ++ events d.
Proof. done. Qed.

Lemma image_added_events reader page_num entry :
  Forall (λ e, image_event e = true) (events (image_added reader page_num entry)).
Proof.
  destruct entry as [idx i]. unfold image_added, ocr_added.
  repeat case_match; cbn; repeat constructor.
Qed.

Lemma images_added_events reader page_num entries :
  Forall (λ e, image_event e = true) (events (images_added reader page_num entries)).
Proof.
  induction entries as [|entry l IH]; [constructor|].
  rewrite images_added_cons, events_state_app.
  apply Forall_app; split; [apply image_added_events | done].
Qed.

Lemma image_event_page_event e : image_event e = true → page_event e = true.
Proof. by destruct e. Qed.

Lemma page_added_events reader doc total_pages page_num :
  Forall (λ e, page_event e = true)
         (events (page_added reader doc total_pages page_num)).
Proof.
  unfold page_added.
  repeat case_match; rewrite ?events_state_app; cbn;
    repeat (apply Forall_cons; split; [done|]); try done.
  all: eapply Forall_impl; [apply images_added_events|].
  all: apply image_event_page_event.
Qed.

Lemma pages_added_events reader doc total_pages page_nums :
  Forall (λ e, page_event e = true)
         (events (pages_added reader doc total_pages page_nums)).
Proof.
  induction page_nums as [|n l IH]; [constructor|].
  rewrite pages_added_cons, events_state_app.
  apply Forall_app; split; [apply page_added_events | done].
Qed.

Lemma st_errors_app l1 l2 : st_errors (l1 ++ l2) = st_errors l1 ++ st_errors l2.
Proof. apply omap_app. Qed.

Lemma st_errors_page_events evs :
  Forall (λ e, page_event e = true) evs → st_errors evs = [].
Proof.
  induction 1 as [|e l He _ IH]; [done|].
  destruct e; try done; apply IH.
Qed.

Lemma st_errors_document_events reader doc :
  st_errors (document_events reader doc) = [].
Proof.
  unfold document_events. rewrite !st_errors_app.
  rewrite (st_errors_page_events (events _)); [done|].
  apply pages_added_events.
Qed.

Arguments st_errors : simpl never.
Arguments document_events : simpl never.
Arguments document_markdown : simpl never.

(** ** The batch *)

Section BatchRun.

Variable splitext : string → string * string.
Variable reader : option Reader.

Lemma process_file_run entry s :
  ∃ s',
    process_file splitext reader entry s = (Return tt, s')
    ∧ zipf s' = zipf s ++ option_list (packaged splitext reader entry.2)
    ∧ st_errors (events s')
      = st_errors (events s) ++ option_list (reported reader entry.2).
Proof.
  destruct entry as [i f]. unfold process_file, packaged, reported, rendered.
  unfold try_except, mbind, py_bind. cbn [snd].
  destruct (open_pdf (getvalue f)) as [doc|e] eqn:Hopen.
  - rewrite (process_pdf_opened _ _ doc _ Hopen).
    destruct (truthy_str _); cbn; eexists; (split; [reflexivity|]); cbn;
      rewrite st_errors_app, st_errors_document_events, ?app_nil_r; done.
  - rewrite (process_pdf_failed _ _ e _ Hopen). cbn.
    eexists; (split; [reflexivity|]); cbn.
    rewrite app_nil_r, !st_errors_app. cbn. by rewrite <- !app_assoc.
Qed.

Lemma process_files_run entries s :
  ∃ s',
    for_each (process_file splitext reader) entries s = (Return tt, s')
    ∧ zipf s' = zipf s ++ omap (packaged splitext reader) entries.*2
    ∧ st_errors (events s')
      = st_errors (events s) ++ omap (reported reader) entries.*2.
Proof.
  revert s. induction entries as [|entry l IH]; intros s.
  - exists s. by rewrite !app_nil_r.
  - destruct (process_file_run entry s) as (s1 & Hrun & Hz & He).
    destruct (IH s1) as (s2 & Hrun2 & Hz2 & He2).
    exists s2. unfold for_each; fold (@for_each (nat * uploaded_file)).
    rewrite Hrun, Hrun2, Hz2, He2, Hz, He. cbn [fmap list_fmap omap list_omap].
    split; [done|].
    destruct (packaged _ _ _), (reported _ _); cbn;
      rewrite <- ?app_assoc; done.
Qed.

Lemma snd_enumerate_from {A} i (l : list A) : (enumerate_from i l).*2 = l.
Proof. revert i. induction l as [|x l IH]; intros i; cbn; [done|]. by rewrite IH. Qed.

Lemma outcome_count (files : list uploaded_file) :
  length (omap (packaged splitext reader) files)
  + length (omap (reported reader) files)
  + length (filter (λ f, dropped splitext reader f = true) files)
  = length files.
Proof.
  induction files as [|f l IH]; [done|].
  assert (packaged splitext reader f = None ∨ reported reader f = None) as Hex.
  { unfold packaged, reported. destruct (rendered _ _); auto. }
  rewrite filter_cons. cbn [omap list_omap].
  case_decide as Hd; unfold dropped in Hd;
    destruct (packaged splitext reader f), (reported reader f);
    try done; cbn [length]; try lia.
  destruct Hex; done.
Qed.

End BatchRun.

(** ** C1: the outcomes of a batch *)

(** C1, as stated, fails: a batch of one document without pages yields no
    archive entry and no reported failure, so one input gives zero
    outcomes. *)
Lemma batch_drops_empty_document :
  let files := [Sample.upload "empty.pdf" Sample.no_pages] in
  let s' := (Process_Files posix_splitext (Some easyocr_Reader) true files ε).2 in
  rendered (Some easyocr_Reader) Sample.no_pages = Return ""
  ∧ length (zipf s') + length (st_errors (events s')) = 0
  ∧ length files = 1.
Proof. vm_compute. done. Qed.

(** C1, amended: a batch gives every uploaded document at most one outcome,
    in upload order: an archive entry when [process_pdf] returns a
    non-empty string, a reported failure when it raises, and nothing when it
    returns the empty string.  The outcomes and the dropped documents
    together are as many as the uploads. *)
Theorem batch_outcomes splitext reader (files : list uploaded_file) s :
  let run := Process_Files splitext reader true files s in
  run.1 = Return tt
  ∧ zipf run.2 = zipf s ++ omap (packaged splitext reader) files
  ∧ st_errors (events run.2)
    = st_errors (events s) ++ omap (reported reader) files
  ∧ length (omap (packaged splitext reader) files)
    + length (omap (reported reader) files)
    + length (filter (λ f, dropped splitext reader f = true) files)
    = length files
  ∧ ∀ f, dropped splitext reader f = true
         ↔ (process_pdf reader (getvalue f) s).1 = Return "".
Proof.
  cbn zeta. split_and!.
  - unfold Process_Files, when. destruct files as [|f l]; [done|].
    cbn [andb truthy].
    by destruct (process_files_run splitext reader (enumerate (f :: l)) s)
      as (s' & -> & _).
  - unfold Process_Files, when. destruct files as [|f l]; cbn [andb truthy].
    { cbn. by rewrite app_nil_r. }
    destruct (process_files_run splitext reader (enumerate (f :: l)) s)
      as (s' & Hrun & Hz & _).
    rewrite Hrun. cbn [snd]. rewrite Hz.
    unfold enumerate. by rewrite snd_enumerate_from.
  - unfold Process_Files, when. destruct files as [|f l]; cbn [andb truthy].
    { cbn. by rewrite app_nil_r. }
    destruct (process_files_run splitext reader (enumerate (f :: l)) s)
      as (s' & Hrun & _ & He).
    rewrite Hrun. cbn [snd]. rewrite He.
    unfold enumerate. by rewrite snd_enumerate_from.
  - apply outcome_count.
  - intros f. rewrite process_pdf_result.
    unfold dropped, packaged, reported, rendered.
    destruct (open_pdf (getvalue f)) as [doc|e]; [|done].
    destruct (join _ _); cbn; split; done.
Qed.

(** The statement of [batch_outcomes] on a batch of three uploads: one is
    packaged, one is dropped, one is reported. *)
Lemma batch_outcomes_witness :
  let files := [Sample.upload "scan.pdf" Sample.two_pages;
                Sample.upload "empty.pdf" Sample.no_pages;
                Sample.upload "broken.pdf" Sample.unreadable] in
  let run := Process_Files posix_splitext (Some easyocr_Reader) true files ε in
  zipf run.2 = zipf ε ++ omap (packaged posix_splitext (Some easyocr_Reader)) files
  ∧ length (omap (packaged posix_splitext (Some easyocr_Reader)) files)
    + length (omap (reported (Some easyocr_Reader)) files)
    + length (filter (λ f, dropped posix_splitext (Some easyocr_Reader) f = true) files)
    = length files.
Proof.
  intros files run.
  pose proof (batch_outcomes posix_splitext (Some easyocr_Reader) files ε) as H.
  split; apply H.
Defined.

(** ** C2: what the image gate's rejections record *)

(** C2, as stated, fails: an image of ten mebibytes and one byte is turned
    away by the gate, and what is recorded for it is an error, not a
    warning. *)
Lemma oversize_image_is_an_error :
  let i := Sample.entry Sample.huge_image "/tmp/b.png" in
  let run := process_image (Some easyocr_Reader) 0 (0, i) ε in
  gate_rejects Sample.huge_image = true
  ∧ errors run.2
    = ["❌ Failed to process image 1 on page 1: Image too large (max 10MB allowed)"]
  ∧ warnings run.2 = [].
Proof. vm_compute. done. Qed.

(** C2, amended: an image the gate turns away because it does not decode
    or has a format outside PNG, JPEG and TIFF adds exactly one warning and
    nothing else; an image over the size ceiling adds exactly one error and
    nothing else.  In both cases no call is made to the outside (the OCR
    engine is not invoked, no file is written) and the loop goes on with
    the next image. *)
Theorem gate_rejection reader page_num img_idx i image rest s :
  extract_image i = Ok image →
  gate_rejects image = true →
  let diag :=
    if oversize image
    then added [] [err_image page_num img_idx msg_too_large] [] []
    else added [] [] [warn_skipped page_num img_idx] [] in
  process_image reader page_num (img_idx, i) s
  = (if oversize image then Return tt else Continue, s ⊕ diag)
  ∧ events (s ⊕ diag) = events s
  ∧ for_each (process_image reader page_num) ((img_idx, i) :: rest) s
    = for_each (process_image reader page_num) rest (s ⊕ diag).
Proof.
  intros Hext Hrej diag.
  assert (process_image reader page_num (img_idx, i) s
          = (if oversize image then Return tt else Continue, s ⊕ diag)) as Hrun.
  { rewrite process_image_run. unfold image_result, image_added, diag.
    cbn [snd]. rewrite Hext. unfold gate_rejects in Hrej.
    destruct (oversize image); [done|].
    cbn in Hrej. by rewrite Hrej. }
  split_and!; [done | |].
  - unfold diag. destruct (oversize image); cbn; by rewrite app_nil_r.
  - rewrite for_each_cons, Hrun. by destruct (oversize image).
Qed.

(** The statement of [gate_rejection] on a GIF, which the gate turns away. *)
Lemma gate_rejection_witness :
  let i := Sample.entry (Sample.image "GIF" (Ok ["LOGO"])) "/tmp/tmp2.png" in
  let image := Sample.image "GIF" (Ok ["LOGO"]) in
  let diag :=
    if oversize image
    then added [] [err_image 0 0 msg_too_large] [] []
    else added [] [] [warn_skipped 0 0] [] in
  process_image (Some easyocr_Reader) 0 (0, i) ε
  = (if oversize image then Return tt else Continue, ε ⊕ diag)
  ∧ events (ε ⊕ diag) = events ε
  ∧ for_each (process_image (Some easyocr_Reader) 0) [(0, i)] ε
    = for_each (process_image (Some easyocr_Reader) 0) [] (ε ⊕ diag).
Proof.
  apply (gate_rejection (Some easyocr_Reader) 0 0
           (Sample.entry (Sample.image "GIF" (Ok ["LOGO"])) "/tmp/tmp2.png")
           (Sample.image "GIF" (Ok ["LOGO"])) [] ε); reflexivity.
Defined.

(** ** C6: a document without pages *)

(** C6: a document that opens and has no pages is processed without any
    diagnostic; the result is the empty string, with no page section and no
    summary. *)
Theorem zero_page_document reader pdf doc s :
  pdf_oversize pdf = false →
  fitz_open pdf = Ok doc →
  pages doc = [] →
  process_pdf reader pdf s
  = (Return "",
     State [] [] [] (zipf s)
           (events s ++ [st_progress 0; st_empty; progress_bar_empty;
                         status_text_empty; doc_close])).
Proof.
  intros Hsize Hopen Hpages.
  rewrite (process_pdf_opened reader pdf doc).
  - unfold document_markdown, document_events, document_added.
    by rewrite Hpages.
  - unfold open_pdf. by rewrite Hsize.
Qed.

(** The statement of [zero_page_document] on the sample without pages. *)
Lemma zero_page_document_witness :
  process_pdf None Sample.no_pages ε
  = (Return "",
     State [] [] [] (zipf ε)
           (events ε ++ [st_progress 0; st_empty; progress_bar_empty;
                         status_text_empty; doc_close])).
Proof.
  apply (zero_page_document None Sample.no_pages {| pages := [] |} ε);
    reflexivity.
Defined.

(** ** C8 and C10: the transient file *)

Lemma written_inv i image p :
  written i = Some (image, p) →
  extract_image i = Ok image ∧ NamedTemporaryFile i = Ok p
  ∧ (∃ u, f_write i = Ok u) ∧ oversize image = false
  ∧ allowed_format image = true.
Proof.
  unfold written, admitted.
  destruct (extract_image i) as [image'|]; [|done].
  destruct (NamedTemporaryFile i) as [p'|]; [|done].
  destruct (f_write i) as [u|]; [|done].
  destruct (oversize image') eqn:Ho, (allowed_format image') eqn:Ha; cbn;
    intros [= <- <-]; split_and!; eauto.
Qed.

Lemma image_added_written reader page_num img_idx i image p :
  written i = Some (image, p) →
  image_added reader page_num (img_idx, i)
  = ocr_added reader page_num img_idx i image p.
Proof.
  intros (Hext & Htmp & [u Hw] & Ho & Ha)%written_inv.
  unfold image_added. by rewrite Hext, Ho, Ha, Htmp, Hw.
Qed.

Lemma ocr_added_events reader page_num img_idx i image p :
  events (ocr_added reader page_num img_idx i image p)
  = [file_create p; file_write p image]
    ++ (if reader is Some _ then [reader_readtext p] else [])
    ++ [unlink p (unlinked i)].
Proof. unfold ocr_added. by repeat case_match. Qed.

(** C8, as stated, fails: when [os.unlink] raises, the transient file is
    still there after the image has been processed. *)
Lemma transient_file_outlives_failed_unlink :
  let run := process_image (Some easyocr_Reader) 0 (0, Sample.sticky) ε in
  written Sample.sticky = Some (Sample.world, "/tmp/tmp3.png")
  ∧ run.1 = Return tt
  ∧ fs_of (events run.2) !! "/tmp/tmp3.png" = Some (Some Sample.world).
Proof. vm_compute. done. Qed.

(** C8, amended: for every image whose transient file is written, whatever
    recognition does (there is no engine, the engine raises, it reads
    nothing, it reads text), the deletion of the file is attempted exactly
    once, as the last call of the image's processing and after the engine's
    call.  The file is gone afterwards when [os.unlink] goes through, and is
    left behind when [os.unlink] raises. *)
Theorem transient_file_released reader page_num img_idx i image p s :
  written i = Some (image, p) →
  let s' := (process_image reader page_num (img_idx, i) s).2 in
  events s'
  = events s ++ [file_create p; file_write p image]
    ++ (if reader is Some _ then [reader_readtext p] else [])
    ++ [unlink p (unlinked i)]
  ∧ fs_of (events s') !! p
    = if unlinked i then None else Some (Some image).
Proof.
  intros Hw s'. unfold s'.
  rewrite process_image_run. cbn [snd].
  rewrite events_state_app, (image_added_written _ _ _ _ image p Hw),
    ocr_added_events.
  split; [done|].
  rewrite fs_of_app.
  destruct reader as [r|], (unlinked i); cbn;
    by rewrite ?lookup_delete_eq, ?lookup_insert_eq.
Qed.

(** The statement of [transient_file_released] on an image that reads
    "WORLD". *)
Lemma transient_file_released_witness :
  let i := Sample.entry Sample.world "/tmp/tmp1.png" in
  let s' := (process_image (Some easyocr_Reader) 0 (0, i) ε).2 in
  events s'
  = events ε ++ [file_create "/tmp/tmp1.png"; file_write "/tmp/tmp1.png" Sample.world]
    ++ [reader_readtext "/tmp/tmp1.png"]
    ++ [unlink "/tmp/tmp1.png" (unlinked i)]
  ∧ fs_of (events s') !! "/tmp/tmp1.png"
    = if unlinked i then None else Some (Some Sample.world).
Proof.
  apply (transient_file_released (Some easyocr_Reader) 0 0
           (Sample.entry Sample.world "/tmp/tmp1.png") Sample.world
           "/tmp/tmp1.png" ε).
  reflexivity.
Defined.

(** What the image adds to the three lists does not depend on the answer
    of [os.unlink]. *)
Lemma image_added_with_unlink reader page_num img_idx i r :
  let d := image_added reader page_num (img_idx, with_unlink r i) in
  let d0 := image_added reader page_num (img_idx, i) in
  markdown d = markdown d0 ∧ errors d = errors d0 ∧ warnings d = warnings d0.
Proof.
  unfold image_added, ocr_added, with_unlink. cbn.
  repeat case_match; done.
Qed.

(** C10: a failing [os.unlink] leaves no mark on the result.  An image
    whose [os.unlink] raises [e] ends its iteration as it does when
    [os.unlink] goes through: nothing is raised, the same blocks, errors and
    warnings are recorded (so none for the failed deletion), and the loop
    over the images that follow returns normally with the same three
    lists. *)
Theorem unlink_failure_swallowed reader page_num img_idx i e rest s :
  let failing := with_unlink (Err e) i in
  let clean := with_unlink (Ok tt) i in
  let body := process_image reader page_num in
  (body (img_idx, failing) s).1 = (body (img_idx, clean) s).1
  ∧ raises (body (img_idx, failing) s).1 = false
  ∧ let run := for_each body ((img_idx, failing) :: rest) s in
    let run0 := for_each body ((img_idx, clean) :: rest) s in
    run.1 = Return tt
    ∧ markdown run.2 = markdown run0.2
    ∧ errors run.2 = errors run0.2
    ∧ warnings run.2 = warnings run0.2.
Proof.
  cbn zeta. rewrite !process_image_run, !process_images_run. cbn [fst snd].
  destruct (image_added_with_unlink reader page_num img_idx i (Err e))
    as (Hm & He & Hw).
  destruct (image_added_with_unlink reader page_num img_idx i (Ok tt))
    as (Hm0 & He0 & Hw0).
  split_and!; try done.
  - apply image_result_no_raise.
  - rewrite !images_added_cons. unfold state_app; cbn [markdown].
    by rewrite Hm, Hm0.
  - rewrite !images_added_cons. unfold state_app; cbn [errors].
    by rewrite He, He0.
  - rewrite !images_added_cons. unfold state_app; cbn [warnings].
    by rewrite Hw, Hw0.
Qed.

(** The statement of [unlink_failure_swallowed] on an image whose file is
    in use. *)
Lemma unlink_failure_swallowed_witness :
  let i := Sample.entry Sample.world "/tmp/tmp3.png" in
  let failing := with_unlink (Err "file in use") i in
  let clean := with_unlink (Ok tt) i in
  let body := process_image (Some easyocr_Reader) 0 in
  (body (0, failing) ε).1 = (body (0, clean) ε).1
  ∧ raises (body (0, failing) ε).1 = false
  ∧ let run := for_each body [(0, failing)] ε in
    let run0 := for_each body [(0, clean)] ε in
    run.1 = Return tt
    ∧ markdown run.2 = markdown run0.2
    ∧ errors run.2 = errors run0.2
    ∧ warnings run.2 = warnings run0.2.
Proof.
  apply (unlink_failure_swallowed (Some easyocr_Reader) 0 0
           (Sample.entry Sample.world "/tmp/tmp3.png") "file in use" [] ε).
Defined.

(** The failing deletion on a sample: the attempt is in the trace, the
    recognised text is recorded all the same, and nothing else is. *)
Example unlink_failure_trace :
  let run := process_image (Some easyocr_Reader) 0 (0, Sample.sticky) ε in
  run.2 = added ["**Image 1 OCR:**" +:+ nl +:+ "WORLD" +:+ nl] [] []
            [file_create "/tmp/tmp3.png"; file_write "/tmp/tmp3.png" Sample.world;
             reader_readtext "/tmp/tmp3.png"; unlink "/tmp/tmp3.png" false].
Proof. vm_compute. done. Qed.

(** ** C7: one failing image among its siblings *)

Lemma image_added_raises reader page_num img_idx i :
  raises_into_handler reader i = true →
  image_result i = Return tt
  ∧ ∃ msg evs,
      (image_added reader page_num (img_idx, i)
       = added [] [err_image page_num img_idx msg] [] evs
       ∨ image_added reader page_num (img_idx, i)
         = added [] [err_ocr page_num img_idx msg] [] evs).
Proof.
  unfold raises_into_handler, image_result, image_added, ocr_added.
  destruct (extract_image i) as [image|e]; [|eauto 6].
  destruct (oversize image); cbn; [eauto 6|].
  destruct (allowed_format image); cbn; [|done].
  destruct (NamedTemporaryFile i) as [p|e]; [|eauto 6].
  destruct (f_write i) as [u|e]; [|eauto 6].
  destruct (recognition reader image) as [l|e]; [done|eauto 6].
Qed.

(** An image whose only failure is the deletion of its transient file:
    its iteration returns normally and records no error. *)
Lemma image_added_deletion_only reader page_num img_idx i :
  raises_into_handler reader i = false →
  deletion_fails i = true →
  image_result i = Return tt
  ∧ errors (image_added reader page_num (img_idx, i)) = [].
Proof.
  unfold deletion_fails. intros Hno Hdel.
  destruct (written i) as [[image p]|] eqn:Hw; [|done].
  rewrite (image_added_written _ _ _ _ image p Hw).
  apply written_inv in Hw as (Hext & Htmp & [u Hwr] & Ho & Ha).
  unfold raises_into_handler in Hno.
  rewrite Hext, Ho, Ha, Htmp, Hwr in Hno. cbn in Hno.
  unfold image_result, ocr_added. rewrite Hext, Ho, Ha.
  split; [done|].
  by destruct (recognition reader image) as [[|x l]|e].
Qed.

(** C7, as stated, fails: the deletion of a transient file is an I/O error
    around the image, and it is recorded nowhere.  On a page of three
    images whose second image is recognised but cannot be deleted, no error
    at all is recorded. *)
Lemma failed_deletion_records_no_error :
  let reader := Some easyocr_Reader in
  let imgs := [Sample.entry (Sample.image "PNG" (Ok ["ONE"])) "/tmp/a.png";
               Sample.sticky;
               Sample.entry (Sample.image "JPEG" (Ok ["THREE"])) "/tmp/c.png"] in
  let run := process_pdf reader (Sample.pdf [Sample.a4 (Ok "Figures") imgs]) ε in
  image_fails reader Sample.sticky = true
  ∧ unlink "/tmp/tmp3.png" false ∈ events run.2
  ∧ errors run.2 = []
  ∧ markdown run.2
    = [page_section 0 "Figures"; images_heading 0; ocr_block 0 ["ONE"];
       ocr_block 1 ["WORLD"]; ocr_block 2 ["THREE"]].
Proof.
  vm_compute. split_and!; try done. repeat constructor.
Qed.

(** C7, amended: on a page whose text is extracted and whose images are
    [before ++ bad :: after], where processing [bad] fails, what [bad] adds
    depends on where it fails.  When an exception reaches a handler of the
    image loop (the decoder cannot extract the image, the gate raises on its
    size, its transient file cannot be created or written, or recognition
    raises), [bad] adds exactly one error, worded for that image and page,
    and no block or warning.  When the only failure is the deletion of its
    transient file, [bad] adds no error: it records what it records when
    the deletion goes through.  In both cases the page's state is its
    section and heading, then what the images before add, then what [bad]
    adds, then what the images after add under their own numbers: each
    sibling adds what it adds when the loop runs over it alone. *)
Theorem sibling_isolation reader doc total_pages page_num p text
    before bad after s :
  pages doc !! page_num = Some (Ok p) →
  get_text p = Ok text →
  get_images p = Ok (before ++ bad :: after) →
  image_fails reader bad = true →
  let k := length before in
  let body := process_image reader page_num in
  ∃ d,
    (if raises_into_handler reader bad
     then ∃ e evs,
            d = added [] [e] [] evs
            ∧ ∃ msg, e = err_image page_num k msg ∨ e = err_ocr page_num k msg
     else let d0 := image_added reader page_num (k, with_unlink (Ok tt) bad) in
          deletion_fails bad = true
          ∧ errors d = []
          ∧ markdown d = markdown d0
          ∧ warnings d = warnings d0)
    ∧ (∀ s0, body (k, bad) s0 = (Return tt, s0 ⊕ d))
    ∧ (∀ s0, for_each body (enumerate before) s0
             = (Return tt, s0 ⊕ images_added reader page_num (enumerate before)))
    ∧ (∀ s0, for_each body (enumerate_from (S k) after) s0
             = (Return tt,
                s0 ⊕ images_added reader page_num (enumerate_from (S k) after)))
    ∧ process_page reader doc total_pages page_num s
      = (Return tt,
         s ⊕ added [page_section page_num text; images_heading page_num] []
               (if page_large p then [warn_page_large page_num] else [])
               (page_start total_pages page_num ++ [doc_load_page page_num])
           ⊕ images_added reader page_num (enumerate before)
           ⊕ d
           ⊕ images_added reader page_num (enumerate_from (S k) after)).
Proof.
  intros Hpage Htext Himgs Hfail k body.
  exists (image_added reader page_num (k, bad)).
  assert (image_result bad = Return tt
          ∧ if raises_into_handler reader bad
            then ∃ e evs,
                   image_added reader page_num (k, bad) = added [] [e] [] evs
                   ∧ ∃ msg, e = err_image page_num k msg
                            ∨ e = err_ocr page_num k msg
            else let d0 := image_added reader page_num
                             (k, with_unlink (Ok tt) bad) in
                 deletion_fails bad = true
                 ∧ errors (image_added reader page_num (k, bad)) = []
                 ∧ markdown (image_added reader page_num (k, bad)) = markdown d0
                 ∧ warnings (image_added reader page_num (k, bad)) = warnings d0)
    as [Hres Hkind].
  { unfold image_fails in Hfail.
    destruct (raises_into_handler reader bad) eqn:Hraise.
    - destruct (image_added_raises reader page_num k bad Hraise)
        as (Hres & msg & evs & [Hadd | Hadd]); eauto 8.
    - cbn in Hfail.
      destruct (image_added_deletion_only reader page_num k bad Hraise Hfail)
        as [Hres Herr].
      destruct (image_added_with_unlink reader page_num k bad (Ok tt))
        as (Hm & _ & Hw).
      cbn zeta. by rewrite Hm, Hw. }
  split_and!.
  - done.
  - intros s0. unfold body. rewrite process_image_run. cbn [snd].
    by rewrite Hres.
  - intros s0. apply process_images_run.
  - intros s0. apply process_images_run.
  - rewrite process_page_run. unfold page_result, page_added.
    rewrite Hpage, Htext, Himgs. f_equal.
    unfold enumerate at 1. rewrite enumerate_from_app.
    cbn [enumerate_from Nat.add]. fold k.
    rewrite images_added_app, images_added_cons.
    rewrite <- !state_app_assoc. do 3 f_equal.
    by destruct before.
Qed.

(** The statement of [sibling_isolation] on the page of three images, the
    second of them too large. *)
Lemma sibling_isolation_witness :
  let reader := Some easyocr_Reader in
  let before := [Sample.entry (Sample.image "PNG" (Ok ["ONE"])) "/tmp/a.png"] in
  let bad := Sample.entry Sample.huge_image "/tmp/b.png" in
  let after := [Sample.entry (Sample.image "JPEG" (Ok ["THREE"])) "/tmp/c.png"] in
  let body := process_image reader 0 in
  ∃ d,
    (if raises_into_handler reader bad
     then ∃ e evs,
            d = added [] [e] [] evs
            ∧ ∃ msg, e = err_image 0 1 msg ∨ e = err_ocr 0 1 msg
     else let d0 := image_added reader 0 (1, with_unlink (Ok tt) bad) in
          deletion_fails bad = true
          ∧ errors d = []
          ∧ markdown d = markdown d0
          ∧ warnings d = warnings d0)
    ∧ (∀ s0, body (1, bad) s0 = (Return tt, s0 ⊕ d))
    ∧ (∀ s0, for_each body (enumerate before) s0
             = (Return tt, s0 ⊕ images_added reader 0 (enumerate before)))
    ∧ (∀ s0, for_each body (enumerate_from 2 after) s0
             = (Return tt, s0 ⊕ images_added reader 0 (enumerate_from 2 after)))
    ∧ process_page reader Sample.figures 1 0 ε
      = (Return tt,
         ε ⊕ added [page_section 0 "Figures"; images_heading 0] []
               (if page_large Sample.figures_page
                then [warn_page_large 0] else [])
               (page_start 1 0 ++ [doc_load_page 0])
           ⊕ images_added reader 0 (enumerate before)
           ⊕ d
           ⊕ images_added reader 0 (enumerate_from 2 after)).
Proof.
  apply (sibling_isolation (Some easyocr_Reader) Sample.figures 1 0
           Sample.figures_page "Figures"
           [Sample.entry (Sample.image "PNG" (Ok ["ONE"])) "/tmp/a.png"]
           (Sample.entry Sample.huge_image "/tmp/b.png")
           [Sample.entry (Sample.image "JPEG" (Ok ["THREE"])) "/tmp/c.png"] ε);
    reflexivity.
Defined.

(** The sample page run through the program: the two siblings are
    recognised, the oversize image between them is one error. *)
Example sibling_isolation_run :
  let run := process_pdf (Some easyocr_Reader) Sample.figures_pdf ε in
  markdown run.2
  = ["## Page 1" +:+ nl +:+ nl +:+ "Figures";
     "### Images on Page 1";
     "**Image 1 OCR:**" +:+ nl +:+ "ONE" +:+ nl;
     "**Image 3 OCR:**" +:+ nl +:+ "THREE" +:+ nl;
     nl +:+ "## Processing Summary";
     nl +:+ "### Errors";
     "❌ Failed to process image 2 on page 1: Image too large (max 10MB allowed)"]
  ∧ errors run.2
    = ["❌ Failed to process image 2 on page 1: Image too large (max 10MB allowed)"]
  ∧ warnings run.2 = [].
Proof. vm_compute. done. Qed.

(** ** C9: progress notifications *)

Lemma events_page_added reader doc total_pages page_num :
  events (page_added reader doc total_pages page_num)
  = page_start total_pages page_num ++ doc_load_page page_num
    :: events (images_added reader page_num (enumerate (page_images doc page_num))).
Proof.
  unfold page_added, page_images.
  repeat case_match; simplify_eq; rewrite ?events_state_app; done.
Qed.

Lemma progress_values_app l1 l2 :
  progress_values (l1 ++ l2) = progress_values l1 ++ progress_values l2.
Proof. apply omap_app. Qed.

Lemma progress_values_image_events evs :
  Forall (λ e, image_event e = true) evs → progress_values evs = [].
Proof.
  induction 1 as [|e l He _ IH]; [done|].
  destruct e; try done; apply IH.
Qed.

Lemma progress_values_page_added reader doc total_pages page_num :
  progress_values (events (page_added reader doc total_pages page_num))
  = [Z.of_nat (page_num + 1) # Pos.of_nat total_pages].
Proof.
  rewrite events_page_added. unfold page_start. cbn.
  by rewrite progress_values_image_events by apply images_added_events.
Qed.

Lemma progress_values_pages_added reader doc total_pages page_nums :
  progress_values (events (pages_added reader doc total_pages page_nums))
  = (λ page_num, Z.of_nat (page_num + 1) # Pos.of_nat total_pages) <$> page_nums.
Proof.
  induction page_nums as [|n l IH]; [done|].
  rewrite pages_added_cons, events_state_app, progress_values_app,
    progress_values_page_added, IH. done.
Qed.

Lemma fraction_lt (i j n : nat) :
  i < j → n ≠ 0 →
  (Z.of_nat (i + 1) # Pos.of_nat n < Z.of_nat (j + 1) # Pos.of_nat n)%Q.
Proof.
  intros Hij Hn. unfold Qlt. cbn [Qnum Qden].
  apply Z.mul_lt_mono_pos_r; lia.
Qed.

Lemma fraction_last (n : nat) :
  (Z.of_nat (n + 1) # Pos.of_nat (S n) == 1)%Q.
Proof.
  unfold Qeq. cbn [Qnum Qden].
  rewrite <- Pos.of_nat_succ, Zpos_P_of_succ_nat. lia.
Qed.

(** C9, as stated, fails: the notification does not come after the page.
    On a document of one page the only notification, with fraction 1, is
    made and the status text set before the page is loaded; nothing is
    notified once the page has been processed. *)
Lemma progress_reported_before_the_page :
  let run := process_pdf (Some easyocr_Reader) Sample.gif_page ε in
  events run.2
  = [st_progress 0; st_empty; progress_bar_progress (1 # 1);
     status_text_text "Processing page 1/1"; doc_load_page 0;
     progress_bar_empty; status_text_empty; doc_close]
  ∧ warnings run.2 = [warn_skipped 0 0].
Proof. vm_compute. done. Qed.

(** C9, amended: for a document of [N] pages that opens, each iteration of
    the page loop begins with its notification, made before the page is
    loaded or processed and so whatever becomes of the page; no other
    notification is made.  The fractions reported are [1/N, 2/N, ..., N/N]
    in this order: strictly increasing, the last one equal to 1. *)
Theorem progress_reporting reader pdf doc s :
  open_pdf pdf = Ok doc →
  let N := length (pages doc) in
  let fraction page_num := (Z.of_nat (page_num + 1) # Pos.of_nat N)%Q in
  ∃ new,
    events (process_pdf reader pdf s).2 = events s ++ new
    ∧ progress_values new = fraction <$> range N
    ∧ (∀ i j v w, i < j →
         progress_values new !! i = Some v →
         progress_values new !! j = Some w → (v < w)%Q)
    ∧ (N ≠ 0 → ∃ v, last (progress_values new) = Some v ∧ (v == 1)%Q)
    ∧ ∀ page_num s0, ∃ rest,
        events (process_page reader doc N page_num s0).2
        = events s0 ++ progress_bar_progress (fraction page_num)
          :: status_text_text ("Processing page " +:+ str (page_num + 1)
                               +:+ "/" +:+ str N)
          :: doc_load_page page_num :: rest
        ∧ Forall (λ e, image_event e = true) rest.
Proof.
  intros Hopen N fraction.
  exists (document_events reader doc).
  assert (progress_values (document_events reader doc) = fraction <$> range N)
    as Hvalues.
  { unfold document_events, document_added.
    rewrite !progress_values_app, progress_values_pages_added. cbn.
    by rewrite app_nil_r. }
  rewrite Hvalues. split_and!.
  - by rewrite (process_pdf_opened reader pdf doc s Hopen).
  - done.
  - intros i j v w Hij Hi Hj. unfold range in *.
    apply list_lookup_fmap_Some in Hi as (i' & -> & Hi).
    apply list_lookup_fmap_Some in Hj as (j' & -> & Hj).
    apply lookup_seq in Hi as [-> ?]. apply lookup_seq in Hj as [-> ?].
    apply fraction_lt; lia.
  - intros HN. destruct N as [|n] eqn:HeqN; [done|].
    exists (fraction n). split.
    + unfold range. rewrite seq_S, fmap_app. cbn. by rewrite last_snoc.
    + unfold fraction. apply fraction_last.
  - intros page_num s0. rewrite process_page_run. cbn [snd].
    rewrite events_state_app, events_page_added.
    eexists. split; [reflexivity|]. apply images_added_events.
Qed.

(** The statement of [progress_reporting] on the document of two pages. *)
Lemma progress_reporting_witness :
  let N := 2 in
  let fraction page_num := (Z.of_nat (page_num + 1) # Pos.of_nat N)%Q in
  ∃ new,
    events (process_pdf (Some easyocr_Reader) Sample.two_pages ε).2 = events ε ++ new
    ∧ progress_values new = fraction <$> range N
    ∧ (∀ i j v w, i < j →
         progress_values new !! i = Some v →
         progress_values new !! j = Some w → (v < w)%Q)
    ∧ (N ≠ 0 → ∃ v, last (progress_values new) = Some v ∧ (v == 1)%Q)
    ∧ ∀ page_num s0, ∃ rest,
        events (process_page (Some easyocr_Reader)
                  {| pages := [Sample.a4 (Ok "Hello") [Sample.entry Sample.world "/tmp/tmp1.png"];
                               Sample.a4 (Err "boom") []] |} N page_num s0).2
        = events s0 ++ progress_bar_progress (fraction page_num)
          :: status_text_text ("Processing page " +:+ str (page_num + 1)
                               +:+ "/" +:+ str N)
          :: doc_load_page page_num :: rest
        ∧ Forall (λ e, image_event e = true) rest.
Proof.
  apply (progress_reporting (Some easyocr_Reader) Sample.two_pages
           {| pages := [Sample.a4 (Ok "Hello") [Sample.entry Sample.world "/tmp/tmp1.png"];
                        Sample.a4 (Err "boom") []] |} ε).
  reflexivity.
Defined.

(** ** Numbers and blocks *)

Lemma string_of_uint_sep_inj u v x y :
  NilEmpty.string_of_uint u +:+ nl +:+ x
  = NilEmpty.string_of_uint v +:+ nl +:+ y → u = v.
Proof.
  revert v. induction u; destruct v; cbn; intros H; try discriminate;
    try done; f_equal; injection H; eauto.
Qed.

Lemma str_sep_inj a b x y :
  str a +:+ nl +:+ x = str b +:+ nl +:+ y → a = b.
Proof.
  intros H%string_of_uint_sep_inj.
  by rewrite <- (Unsigned.of_to a), <- (Unsigned.of_to b), H.
Qed.

Lemma str_inj a b : str a = str b → a = b.
Proof.
  unfold str. intros H.
  assert (Some (Nat.to_uint a) = Some (Nat.to_uint b)) as [= Hu]
    by by rewrite <- !NilEmpty.usu, H.
  by rewrite <- (Unsigned.of_to a), <- (Unsigned.of_to b), Hu.
Qed.

Arguments str : simpl never.

Lemma page_section_inj n k t t' : page_section n t = page_section k t' → n = k.
Proof.
  unfold page_section. cbn. intros [= H].
  apply str_sep_inj in H. lia.
Qed.

Lemma images_heading_inj n k : images_heading n = images_heading k → n = k.
Proof.
  unfold images_heading. cbn. intros [= H].
  apply str_inj in H. lia.
Qed.

(** The blocks of a page: its section, the heading of its images, then
    the blocks of the images. *)
Lemma markdown_state_app s d : markdown (s ⊕ d) = markdown s ++ markdown d.
Proof. done. Qed.

Lemma errors_state_app s d : errors (s ⊕ d) = errors s ++ errors d.
Proof. done. Qed.

Lemma warnings_state_app s d : warnings (s ⊕ d) = warnings s ++ warnings d.
Proof. done. Qed.

Lemma markdown_page_added reader doc total_pages page_num :
  markdown (page_added reader doc total_pages page_num)
  = (if page_text doc page_num is Some text
     then [page_section page_num text] else [])
    ++ (if truthy (page_images doc page_num)
        then [images_heading page_num] else [])
    ++ markdown (images_added reader page_num
                   (enumerate (page_images doc page_num))).
Proof.
  unfold page_added, page_text, page_images.
  repeat case_match; simplify_eq; rewrite ?markdown_state_app; done.
Qed.

Lemma markdown_pages_added reader doc total_pages page_nums x :
  x ∈ markdown (pages_added reader doc total_pages page_nums)
  ↔ ∃ page_num, page_num ∈ page_nums
                ∧ x ∈ markdown (page_added reader doc total_pages page_num).
Proof.
  induction page_nums as [|n l IH].
  - split; [by intros ?%elem_of_nil | by intros (? & ?%elem_of_nil & _)].
  - rewrite pages_added_cons, markdown_state_app, elem_of_app, IH.
    split.
    + intros [H | (k & Hk & H)]; [exists n | exists k];
        (split; [| done]); [apply list_elem_of_here | by apply list_elem_of_further].
    + intros (k & [-> | Hk]%elem_of_cons & H); eauto.
Qed.

Lemma well_worded_app d1 d2 :
  well_worded d1 → well_worded d2 → well_worded (d1 ⊕ d2).
Proof.
  intros (? & ? & ?) (? & ? & ?).
  split_and!; cbn; by apply Forall_app.
Qed.

Lemma image_added_well_worded reader page_num entry :
  well_worded (image_added reader page_num entry).
Proof.
  destruct entry as [idx i]. unfold image_added, ocr_added.
  repeat case_match; unfold well_worded; split_and!; cbn;
    repeat constructor.
Qed.

Lemma images_added_well_worded reader page_num entries :
  well_worded (images_added reader page_num entries).
Proof.
  induction entries as [|entry l IH].
  - split_and!; constructor.
  - rewrite images_added_cons.
    apply well_worded_app; [apply image_added_well_worded | done].
Qed.

Lemma page_added_diagnostics reader doc total_pages page_num :
  Forall (λ b, is_error_line b = true)
         (errors (page_added reader doc total_pages page_num))
  ∧ Forall (λ b, is_warning_line b = true)
           (warnings (page_added reader doc total_pages page_num)).
Proof.
  pose proof (images_added_well_worded reader page_num) as Himgs.
  unfold page_added.
  repeat case_match;
    rewrite ?errors_state_app, ?warnings_state_app; cbn;
    split; repeat constructor; apply Himgs.
Qed.

Lemma pages_added_diagnostics reader doc total_pages page_nums :
  Forall (λ b, is_error_line b = true)
         (errors (pages_added reader doc total_pages page_nums))
  ∧ Forall (λ b, is_warning_line b = true)
           (warnings (pages_added reader doc total_pages page_nums)).
Proof.
  induction page_nums as [|n l [IHe IHw]]; [split; constructor|].
  destruct (page_added_diagnostics reader doc total_pages n) as [He Hw].
  rewrite pages_added_cons, errors_state_app, warnings_state_app.
  split; by apply Forall_app.
Qed.

(** The lines of the summary are its three headings, the errors and the
    warnings. *)
Lemma summary_lines er wa x :
  x ∈ summary er wa →
  x = nl +:+ "## Processing Summary" ∨ x = nl +:+ "### Errors"
  ∨ x = nl +:+ "### Warnings" ∨ x ∈ er ∨ x ∈ wa.
Proof.
  unfold summary.
  repeat case_match; cbn;
    repeat first [rewrite elem_of_app | rewrite elem_of_cons
                 | rewrite elem_of_nil]; tauto.
Qed.

Arguments Ascii.eqb : simpl never.

(** No block is of two kinds. *)
Lemma kinds_of_ocr_block b :
  is_ocr_block b = true → is_page_section b = false ∧ is_images_heading b = false.
Proof.
  destruct b as [|a b]; [done|].
  unfold is_ocr_block, is_page_section, is_images_heading. cbn.
  destruct (Ascii.eqb _ a) eqn:Ha; [|by cbn].
  apply Ascii.eqb_eq in Ha as <-. by vm_compute.
Qed.

Lemma kinds_of_error_line b :
  is_error_line b = true → is_page_section b = false ∧ is_images_heading b = false.
Proof.
  destruct b as [|a b]; [done|].
  unfold is_error_line, is_page_section, is_images_heading. cbn.
  destruct (Ascii.eqb _ a) eqn:Ha; [|by cbn].
  apply Ascii.eqb_eq in Ha as <-. by vm_compute.
Qed.

Lemma kinds_of_warning_line b :
  is_warning_line b = true → is_page_section b = false ∧ is_images_heading b = false.
Proof.
  destruct b as [|a b]; [done|].
  unfold is_warning_line, is_page_section, is_images_heading. cbn.
  destruct (Ascii.eqb _ a) eqn:Ha; [|by cbn].
  apply Ascii.eqb_eq in Ha as <-. by vm_compute.
Qed.

Lemma filter_none {A} (P : A → Prop) `{∀ x, Decision (P x)} (l : list A) :
  Forall (λ x, ¬ P x) l → filter P l = [].
Proof.
  induction 1 as [|x l Hx _ IH]; [done|].
  by rewrite filter_cons_False.
Qed.

Lemma summary_kinds er wa :
  Forall (λ b, is_error_line b = true) er →
  Forall (λ b, is_warning_line b = true) wa →
  Forall (λ b, is_page_section b = false ∧ is_images_heading b = false)
         (summary er wa).
Proof.
  intros Her Hwa. apply Forall_forall. intros x Hx.
  apply summary_lines in Hx as [-> | [-> | [-> | [Hx | Hx]]]]; [done..| |].
  - apply kinds_of_error_line. by eapply Forall_forall in Her.
  - apply kinds_of_warning_line. by eapply Forall_forall in Hwa.
Qed.

(** The page sections among the blocks of a page, and among those of a
    document. *)
Lemma page_added_sections reader doc total_pages page_num :
  filter (λ b, is_page_section b = true)
         (markdown (page_added reader doc total_pages page_num))
  = option_list (page_section page_num <$> page_text doc page_num).
Proof.
  rewrite markdown_page_added, !filter_app.
  rewrite (filter_none _ (markdown (images_added _ _ _))).
  2: { eapply Forall_impl; [apply images_added_well_worded|].
       intros b [-> _]%kinds_of_ocr_block. done. }
  destruct (page_text doc page_num), (truthy (page_images doc page_num)); done.
Qed.

Lemma page_added_headings reader doc total_pages page_num :
  filter (λ b, is_images_heading b = true)
         (markdown (page_added reader doc total_pages page_num))
  = if truthy (page_images doc page_num) then [images_heading page_num] else [].
Proof.
  rewrite markdown_page_added, !filter_app.
  rewrite (filter_none _ (markdown (images_added _ _ _))).
  2: { eapply Forall_impl; [apply images_added_well_worded|].
       intros b [_ ->]%kinds_of_ocr_block. done. }
  destruct (page_text doc page_num), (truthy (page_images doc page_num)); done.
Qed.

Lemma document_sections reader doc :
  filter (λ b, is_page_section b = true) (document_markdown reader doc)
  = page_sections doc.
Proof.
  unfold document_markdown, document_added, page_sections.
  rewrite filter_app, (filter_none _ (summary _ _)), app_nil_r.
  2: { eapply Forall_impl; [apply summary_kinds; apply pages_added_diagnostics|].
       intros b [-> _]. done. }
  induction (range (length (pages doc))) as [|n l IH]; [done|].
  rewrite pages_added_cons, markdown_state_app, filter_app,
    page_added_sections, IH.
  cbn. by destruct (page_text doc n).
Qed.

Lemma document_headings reader doc :
  filter (λ b, is_images_heading b = true) (document_markdown reader doc)
  = images_headings doc.
Proof.
  unfold document_markdown, document_added, images_headings.
  rewrite filter_app, (filter_none _ (summary _ _)), app_nil_r.
  2: { eapply Forall_impl; [apply summary_kinds; apply pages_added_diagnostics|].
       intros b [_ ->]. done. }
  induction (range (length (pages doc))) as [|n l IH]; [done|].
  rewrite pages_added_cons, markdown_state_app, filter_app,
    page_added_headings, IH.
  cbn. by destruct (truthy (page_images doc n)).
Qed.

Lemma string_app_inv_head s x y : s +:+ x = s +:+ y → x = y.
Proof. induction s as [|a s IH]; cbn; [done|]. intros [= H]. auto. Qed.

Lemma page_section_in_document reader doc page_num text :
  page_section page_num text ∈ document_markdown reader doc
  ↔ page_text doc page_num = Some text.
Proof.
  transitivity (page_section page_num text ∈ page_sections doc).
  - rewrite <- (document_sections reader), list_elem_of_filter. tauto.
  - unfold page_sections. rewrite list_elem_of_omap. split.
    + intros (k & _ & Hk). destruct (page_text doc k) as [t|] eqn:Ht; [|done].
      apply (inj Some) in Hk.
      pose proof (page_section_inj _ _ _ _ Hk) as ->.
      unfold page_section in Hk.
      do 4 apply string_app_inv_head in Hk. by subst.
    + intros Ht. exists page_num. rewrite Ht. split; [|done].
      unfold range. apply elem_of_seq. split; [lia|]. cbn.
      unfold page_text in Ht.
      destruct (pages doc !! page_num) eqn:Hl; [|done].
      by apply lookup_lt_Some in Hl.
Qed.

Lemma images_heading_in_document reader doc page_num :
  images_heading page_num ∈ document_markdown reader doc
  ↔ page_images doc page_num ≠ [].
Proof.
  transitivity (images_heading page_num ∈ images_headings doc).
  - rewrite <- (document_headings reader), list_elem_of_filter. tauto.
  - unfold images_headings. rewrite list_elem_of_omap. split.
    + intros (k & _ & Hk).
      destruct (page_images doc k) as [|i l] eqn:Hi; [done|].
      apply (inj Some), images_heading_inj in Hk as ->. by rewrite Hi.
    + intros Hi. exists page_num. split.
      * unfold range. apply elem_of_seq. split; [lia|]. cbn.
        unfold page_images in Hi.
        destruct (pages doc !! page_num) eqn:Hl; [|done].
        by apply lookup_lt_Some in Hl.
      * by destruct (page_images doc page_num).
Qed.

Lemma errors_pages_added reader doc total_pages page_nums page_num x :
  page_num ∈ page_nums →
  x ∈ errors (page_added reader doc total_pages page_num) →
  x ∈ errors (pages_added reader doc total_pages page_nums).
Proof.
  induction page_nums as [|n l IH]; [by intros ?%elem_of_nil|].
  rewrite pages_added_cons, errors_state_app, elem_of_app.
  intros [-> | Hin]%elem_of_cons; auto.
Qed.

Lemma process_pdf_markdown reader pdf doc s :
  open_pdf pdf = Ok doc →
  markdown (process_pdf reader pdf s).2 = document_markdown reader doc.
Proof. intros Hopen. by rewrite (process_pdf_opened _ _ doc). Qed.

(** ** C3: a page whose text cannot be extracted *)

(** C3, as stated, fails: in the document of two pages whose second page
    raises on [get_text], the error is recorded but the blocks hold no
    section for page 2, with empty text or any other. *)
Lemma failed_page_has_no_section :
  let run := process_pdf (Some easyocr_Reader) Sample.two_pages ε in
  markdown run.2
  = [page_section 0 "Hello"; images_heading 0; ocr_block 0 ["WORLD"];
     nl +:+ "## Processing Summary"; nl +:+ "### Errors"; err_text 1 "boom"]
  ∧ filter (λ b, is_page_section b = true) (markdown run.2)
    = [page_section 0 "Hello"]
  ∧ errors run.2 = ["❌ Failed to extract text from page 2: boom"].
Proof. vm_compute. done. Qed.

(** C3, amended: when [get_text] raises [e] on a page that loaded, the
    page's iteration records exactly one error, which names the page, and
    ends with [continue]: nothing is appended to the blocks, so the
    document has no section for that page, no image of the page is looked
    at, and the loop goes on with the next page.  The error is among the
    errors of the document. *)
Theorem text_extraction_failure reader pdf doc page_num p e s :
  open_pdf pdf = Ok doc →
  pages doc !! page_num = Some (Ok p) →
  get_text p = Err e →
  let N := length (pages doc) in
  let body := process_page reader doc N in
  (∀ s0 rest,
     let s1 := s0 ⊕ added [] [err_text page_num e]
                      (if page_large p then [warn_page_large page_num] else [])
                      (page_start N page_num ++ [doc_load_page page_num]) in
     body page_num s0 = (Continue, s1)
     ∧ for_each body (page_num :: rest) s0 = for_each body rest s1)
  ∧ (∀ text, page_section page_num text ∉ markdown (process_pdf reader pdf s).2)
  ∧ err_text page_num e ∈ errors (process_pdf reader pdf s).2.
Proof.
  intros Hopen Hpage Htext N body.
  assert (page_added reader doc N page_num
          = added [] [err_text page_num e]
              (if page_large p then [warn_page_large page_num] else [])
              (page_start N page_num ++ [doc_load_page page_num])) as Hadd.
  { unfold page_added. by rewrite Hpage, Htext. }
  assert (∀ s0, body page_num s0 = (Continue, s0 ⊕ page_added reader doc N page_num))
    as Hrun.
  { intros s0. unfold body. rewrite process_page_run. f_equal.
    unfold page_result. by rewrite Hpage, Htext. }
  split_and!.
  - intros s0 rest. cbn zeta. rewrite <- Hadd. split; [apply Hrun|].
    by rewrite for_each_cons, Hrun.
  - intros text. rewrite (process_pdf_markdown _ _ doc) by done.
    rewrite page_section_in_document. unfold page_text.
    by rewrite Hpage, Htext.
  - rewrite (process_pdf_opened _ _ doc) by done. cbn [snd errors].
    apply (errors_pages_added _ _ _ _ page_num).
    + unfold range. apply elem_of_seq. apply lookup_lt_Some in Hpage. lia.
    + fold N. rewrite Hadd. cbn. apply list_elem_of_here.
Qed.

(** The statement of [text_extraction_failure] on the second of the two
    pages. *)
Lemma text_extraction_failure_witness :
  let reader := Some easyocr_Reader in
  let doc := {| pages := [Sample.a4 (Ok "Hello") [Sample.entry Sample.world "/tmp/tmp1.png"];
                          Sample.a4 (Err "boom") []] |} in
  let p := {| rect_width := 595; rect_height := 842;
              get_text := Err "boom"; get_images := Ok [] |} in
  let body := process_page reader doc 2 in
  (∀ s0 rest,
     let s1 := s0 ⊕ added [] [err_text 1 "boom"]
                      (if page_large p then [warn_page_large 1] else [])
                      (page_start 2 1 ++ [doc_load_page 1]) in
     body 1 s0 = (Continue, s1)
     ∧ for_each body (1 :: rest) s0 = for_each body rest s1)
  ∧ (∀ text, page_section 1 text
             ∉ markdown (process_pdf reader Sample.two_pages ε).2)
  ∧ err_text 1 "boom" ∈ errors (process_pdf reader Sample.two_pages ε).2.
Proof.
  apply (text_extraction_failure (Some easyocr_Reader) Sample.two_pages
           {| pages := [Sample.a4 (Ok "Hello") [Sample.entry Sample.world "/tmp/tmp1.png"];
                        Sample.a4 (Err "boom") []] |}
           1
           {| rect_width := 595; rect_height := 842;
              get_text := Err "boom"; get_images := Ok [] |}
           "boom" ε); reflexivity.
Defined.

(** ** C4: the heading of a page's images *)

(** C4, as stated, fails: the only image of the page is a GIF, which the
    gate turns away, so no image yields text; the heading is there all the
    same. *)
Lemma heading_without_recognised_text :
  let reader := Some easyocr_Reader in
  let run := process_pdf reader Sample.gif_page ε in
  markdown run.2
  = [page_section 0 "Cover"; images_heading 0;
     nl +:+ "## Processing Summary"; nl +:+ "### Warnings"; warn_skipped 0 0]
  ∧ existsb (yields_text reader)
            [Sample.entry (Sample.image "GIF" (Ok ["LOGO"])) "/tmp/tmp2.png"]
    = false.
Proof. vm_compute. done. Qed.

(** C4, amended: in the blocks of a document that opens, the heading
    [Images on Page n] is present if and only if page [n] loads, its text
    is extracted and [get_images] returns at least one image, whether or
    not any of the images yields recognised text. *)
Theorem images_heading_iff reader pdf doc page_num s :
  open_pdf pdf = Ok doc →
  images_heading page_num ∈ markdown (process_pdf reader pdf s).2
  ↔ ∃ p text img_list,
      pages doc !! page_num = Some (Ok p) ∧ get_text p = Ok text
      ∧ get_images p = Ok img_list ∧ img_list ≠ [].
Proof.
  intros Hopen. rewrite (process_pdf_markdown _ _ doc) by done.
  rewrite images_heading_in_document. unfold page_images. split.
  - destruct (pages doc !! page_num) as [[p|]|]; [|done..].
    destruct (get_text p) as [text|] eqn:Ht; [|done].
    destruct (get_images p) as [img_list|] eqn:Hi; [|done].
    intros Hne. by exists p, text, img_list.
  - intros (p & text & img_list & -> & -> & -> & Hne). done.
Qed.

(** The statement of [images_heading_iff] on the page with one GIF. *)
Lemma images_heading_iff_witness :
  images_heading 0 ∈ markdown (process_pdf None Sample.gif_page ε).2
  ↔ ∃ p text img_list,
      pages {| pages := [Sample.a4 (Ok "Cover")
                  [Sample.entry (Sample.image "GIF" (Ok ["LOGO"])) "/tmp/tmp2.png"]] |}
        !! 0 = Some (Ok p)
      ∧ get_text p = Ok text
      ∧ get_images p = Ok img_list ∧ img_list ≠ [].
Proof.
  apply (images_heading_iff None Sample.gif_page
           {| pages := [Sample.a4 (Ok "Cover")
                [Sample.entry (Sample.image "GIF" (Ok ["LOGO"])) "/tmp/tmp2.png"]] |}
           0 ε).
  reflexivity.
Defined.

(** ** C5: no OCR engine *)

Lemma image_added_no_engine page_num entry :
  Forall (λ e, is_readtext e = false) (events (image_added None page_num entry)).
Proof.
  destruct entry as [idx i]. unfold image_added, ocr_added.
  repeat case_match; cbn; repeat constructor.
Qed.

Lemma images_added_no_engine page_num entries :
  Forall (λ e, is_readtext e = false) (events (images_added None page_num entries)).
Proof.
  induction entries as [|entry l IH]; [constructor|].
  rewrite images_added_cons, events_state_app.
  apply Forall_app; split; [apply image_added_no_engine | done].
Qed.

Lemma pages_added_no_engine doc total_pages page_nums :
  Forall (λ e, is_readtext e = false)
         (events (pages_added None doc total_pages page_nums)).
Proof.
  induction page_nums as [|n l IH]; [constructor|].
  rewrite pages_added_cons, events_state_app, events_page_added.
  apply Forall_app; split; [|done].
  unfold page_start. repeat constructor. apply images_added_no_engine.
Qed.

(** C5, as stated, fails: without an engine the transient file of an
    admitted image is still created and written before the missing engine
    is noticed. *)
Lemma transient_file_written_without_engine :
  let run := process_pdf None Sample.two_pages ε in
  filter (λ e, is_file_event e = true) (events run.2)
  = [file_create "/tmp/tmp1.png"; file_write "/tmp/tmp1.png" Sample.world]
  ∧ errors run.2
    = ["❌ OCR Error for image 1 on page 1: OCR engine not initialized";
       "❌ Failed to extract text from page 2: boom"].
Proof. vm_compute. done. Qed.

(** C5, amended: when [reader] is [None], every admitted image whose
    transient file is written adds exactly one error, [OCR engine not
    initialized], and nothing else to the lists; its transient file is
    created and written first and its deletion attempted afterwards.  The
    engine is never called in the whole document, and the page sections of
    the document are the ones produced with an engine: every page whose
    text is extracted has its section. *)
Theorem degraded_ocr pdf doc s :
  open_pdf pdf = Ok doc →
  let run := process_pdf None pdf s in
  (∀ page_num img_idx i image p s0,
     written i = Some (image, p) →
     process_image None page_num (img_idx, i) s0
     = (Return tt,
        s0 ⊕ added [] [err_ocr page_num img_idx msg_no_engine] []
               [file_create p; file_write p image; unlink p (unlinked i)]))
  ∧ (∃ new, events run.2 = events s ++ new
            ∧ Forall (λ e, is_readtext e = false) new)
  ∧ (∀ reader,
       filter (λ b, is_page_section b = true) (markdown run.2)
       = filter (λ b, is_page_section b = true)
                (markdown (process_pdf reader pdf s).2))
  ∧ ∀ page_num p text,
      pages doc !! page_num = Some (Ok p) → get_text p = Ok text →
      page_section page_num text ∈ markdown run.2.
Proof.
  intros Hopen run. unfold run. split_and!.
  - intros page_num img_idx i image p s0 Hw.
    rewrite process_image_run. cbn [snd].
    rewrite (image_added_written _ _ _ _ image p Hw).
    apply written_inv in Hw as (Hext & _ & _ & Ho & Ha).
    unfold image_result. by rewrite Hext, Ho, Ha.
  - rewrite (process_pdf_opened _ _ doc) by done. cbn [snd events].
    eexists. split; [reflexivity|].
    unfold document_events.
    repeat first [apply Forall_app; split | apply Forall_cons; split; [done|]
                 | apply Forall_nil_2 ].
    apply pages_added_no_engine.
  - intros reader. rewrite !(process_pdf_markdown _ _ doc) by done.
    by rewrite !document_sections.
  - intros page_num p text Hpage Htext.
    rewrite (process_pdf_markdown _ _ doc) by done.
    apply page_section_in_document. unfold page_text. by rewrite Hpage, Htext.
Qed.

(** The statement of [degraded_ocr] on the document of two pages. *)
Lemma degraded_ocr_witness :
  let doc := {| pages := [Sample.a4 (Ok "Hello") [Sample.entry Sample.world "/tmp/tmp1.png"];
                          Sample.a4 (Err "boom") []] |} in
  let run := process_pdf None Sample.two_pages ε in
  (∀ page_num img_idx i image p s0,
     written i = Some (image, p) →
     process_image None page_num (img_idx, i) s0
     = (Return tt,
        s0 ⊕ added [] [err_ocr page_num img_idx msg_no_engine] []
               [file_create p; file_write p image; unlink p (unlinked i)]))
  ∧ (∃ new, events run.2 = events ε ++ new
            ∧ Forall (λ e, is_readtext e = false) new)
  ∧ (∀ reader,
       filter (λ b, is_page_section b = true) (markdown run.2)
       = filter (λ b, is_page_section b = true)
                (markdown (process_pdf reader Sample.two_pages ε).2))
  ∧ ∀ page_num p text,
      pages doc !! page_num = Some (Ok p) → get_text p = Ok text →
      page_section page_num text ∈ markdown run.2.
Proof.
  apply (degraded_ocr Sample.two_pages
           {| pages := [Sample.a4 (Ok "Hello") [Sample.entry Sample.world "/tmp/tmp1.png"];
                        Sample.a4 (Err "boom") []] |} ε).
  reflexivity.
Defined.

(** * Properties of the rest of the code *)

(** ** Opening a document *)

(** X1: a buffer of more than fifty mebibytes is refused before the decoder
    is asked: whatever [fitz.open] would answer, [process_pdf] raises the
    size message wrapped in [Failed to open PDF], logs it once, creates no
    widget and leaves the lists alone. *)
Theorem oversize_pdf_rejected reader pdf s :
  (50 * 1024 * 1024 < pdf_len pdf)%N →
  let msg := "Failed to open PDF: PDF file too large (max 50MB allowed, got "
             +:+ format_mb_1f (pdf_len pdf) +:+ "MB)" in
  process_pdf reader pdf s
  = (Raise msg, s ⊕ added [] [] [] [logger_error msg]).
Proof.
  intros Hlen msg. apply process_pdf_failed.
  unfold open_pdf, pdf_oversize.
  replace (MAX_PDF_SIZE_MB * (1024 * 1024))%N with (50 * 1024 * 1024)%N by done.
  by apply N.ltb_lt in Hlen as ->.
Qed.

(** The statement of [oversize_pdf_rejected] on fifty mebibytes and one
    byte. *)
Lemma oversize_pdf_rejected_witness :
  let msg := "Failed to open PDF: PDF file too large (max 50MB allowed, got "
             +:+ format_mb_1f (pdf_len Sample2.oversize_pdf) +:+ "MB)" in
  process_pdf None Sample2.oversize_pdf ε
  = (Raise msg, ε ⊕ added [] [] [] [logger_error msg]).
Proof.
  apply (oversize_pdf_rejected None Sample2.oversize_pdf ε). reflexivity.
Defined.

(** X2: a buffer within the ceiling, fifty mebibytes included, that
    [fitz.open] cannot read makes [process_pdf] raise the decoder's message
    wrapped in [Failed to open PDF]; it is logged once, no widget is
    created, nothing is closed and the lists are left alone. *)
Theorem unreadable_pdf_rejected reader pdf e s :
  (pdf_len pdf <= 50 * 1024 * 1024)%N →
  fitz_open pdf = Err e →
  process_pdf reader pdf s
  = (Raise ("Failed to open PDF: " +:+ e),
     s ⊕ added [] [] [] [logger_error ("Failed to open PDF: " +:+ e)]).
Proof.
  intros Hlen Hopen. apply process_pdf_failed.
  unfold open_pdf, pdf_oversize.
  replace (MAX_PDF_SIZE_MB * (1024 * 1024))%N with (50 * 1024 * 1024)%N by done.
  by apply N.ltb_ge in Hlen as ->.
Qed.

(** The statement of [unreadable_pdf_rejected] on the sample that does not
    open. *)
Lemma unreadable_pdf_rejected_witness :
  process_pdf None Sample.unreadable ε
  = (Raise ("Failed to open PDF: " +:+ "cannot open broken document"),
     ε ⊕ added [] [] [] [logger_error ("Failed to open PDF: "
                                       +:+ "cannot open broken document")]).
Proof.
  apply (unreadable_pdf_rejected None Sample.unreadable
           "cannot open broken document" ε).
  - cbn. lia.
  - reflexivity.
Defined.

(** X3: opening is the only step of [process_pdf] that can fail.  It raises
    if and only if the buffer is over the size ceiling or [fitz.open]
    raises; once the document is open, no failure of a page or of an image
    escapes and a string is returned. *)
Theorem only_opening_is_fatal reader pdf s :
  (raises (process_pdf reader pdf s).1 = true
   ↔ (50 * 1024 * 1024 < pdf_len pdf)%N ∨ ∃ e, fitz_open pdf = Err e)
  ∧ (raises (process_pdf reader pdf s).1 = false
     ↔ ∃ md_content, (process_pdf reader pdf s).1 = Return md_content).
Proof.
  rewrite process_pdf_result. unfold rendered, open_pdf, pdf_oversize.
  replace (MAX_PDF_SIZE_MB * (1024 * 1024))%N with (50 * 1024 * 1024)%N by done.
  destruct (50 * 1024 * 1024 <? pdf_len pdf)%N eqn:Hlen.
  - apply N.ltb_lt in Hlen. cbn. split; [tauto|].
    split; [done | by intros [? ?]].
  - apply N.ltb_ge in Hlen. destruct (fitz_open pdf) as [doc|e]; cbn.
    + split; [|split; eauto].
      split; [done|]. intros [? | [? ?]]; [lia | done].
    + split; [|split; [done | by intros [? ?]]].
      split; eauto.
Qed.

(** ** The batch, document by document *)

(** X4: a document that cannot be opened is shown to the user once and
    logged twice, and nothing else happens for it: the batch loop catches
    what [process_pdf] raised, reports [Error processing <name>: Failed to
    open PDF: <cause>] with [st.error], logs the same line, writes nothing
    to the archive and goes on. *)
Theorem failed_document_reported splitext reader i f e rest s :
  open_pdf (getvalue f) = Err e →
  let cause := "Failed to open PDF: " +:+ e in
  let line := "Error processing " +:+ name f +:+ ": " +:+ cause in
  let s' := s ⊕ added [] [] [] [logger_error cause; st_error line;
                                logger_error line] in
  process_file splitext reader (i, f) s = (Return tt, s')
  ∧ for_each (process_file splitext reader) ((i, f) :: rest) s
    = for_each (process_file splitext reader) rest s'.
Proof.
  intros Hopen cause line s'.
  assert (process_file splitext reader (i, f) s = (Return tt, s')) as Hrun.
  { unfold process_file, try_except, mbind, py_bind.
    rewrite (process_pdf_failed _ _ e _ Hopen). cbn. unfold emit. cbn.
    unfold s', line, cause. f_equal. state_eq. }
  split; [done|]. by rewrite for_each_cons, Hrun.
Qed.

(** The statement of [failed_document_reported] on the sample that does
    not open. *)
Lemma failed_document_reported_witness :
  let f := Sample.upload "broken.pdf" Sample.unreadable in
  let cause := "Failed to open PDF: " +:+ "cannot open broken document" in
  let line := "Error processing " +:+ name f +:+ ": " +:+ cause in
  let s' := ε ⊕ added [] [] [] [logger_error cause; st_error line;
                                logger_error line] in
  process_file posix_splitext None (0, f) ε = (Return tt, s')
  ∧ for_each (process_file posix_splitext None) [(0, f)] ε
    = for_each (process_file posix_splitext None) [] s'.
Proof.
  apply (failed_document_reported posix_splitext None 0
           (Sample.upload "broken.pdf" Sample.unreadable)
           "cannot open broken document" [] ε).
  reflexivity.
Defined.

(** ** What is rendered *)

Lemma ocr_block_nonempty b : is_ocr_block b = true → b ≠ "".
Proof. by intros H ->. Qed.

Lemma error_line_nonempty b : is_error_line b = true → b ≠ "".
Proof. by intros H ->. Qed.

Lemma warning_line_nonempty b : is_warning_line b = true → b ≠ "".
Proof. by intros H ->. Qed.

Lemma page_added_blocks_nonempty reader doc total_pages page_num :
  Forall (λ b, b ≠ "") (markdown (page_added reader doc total_pages page_num)).
Proof.
  rewrite markdown_page_added. repeat (apply Forall_app; split).
  - destruct (page_text doc page_num); by repeat constructor.
  - destruct (truthy (page_images doc page_num)); by repeat constructor.
  - eapply Forall_impl; [apply images_added_well_worded|].
    apply ocr_block_nonempty.
Qed.

Lemma pages_added_blocks_nonempty reader doc total_pages page_nums :
  Forall (λ b, b ≠ "") (markdown (pages_added reader doc total_pages page_nums)).
Proof.
  induction page_nums as [|n l IH]; [constructor|].
  rewrite pages_added_cons, markdown_state_app.
  apply Forall_app; split; [apply page_added_blocks_nonempty | done].
Qed.

Lemma summary_nonempty er wa :
  Forall (λ b, is_error_line b = true) er →
  Forall (λ b, is_warning_line b = true) wa →
  Forall (λ b, b ≠ "") (summary er wa).
Proof.
  intros Her Hwa. apply Forall_forall. intros x Hx.
  apply summary_lines in Hx as [-> | [-> | [-> | [Hx | Hx]]]]; [done..| |].
  - apply error_line_nonempty. by eapply Forall_forall in Her.
  - apply warning_line_nonempty. by eapply Forall_forall in Hwa.
Qed.

Lemma document_blocks_nonempty reader doc :
  Forall (λ b, b ≠ "") (document_markdown reader doc).
Proof.
  unfold document_markdown, document_added. apply Forall_app; split.
  - apply pages_added_blocks_nonempty.
  - apply summary_nonempty; apply pages_added_diagnostics.
Qed.

Lemma string_app_empty x y : x +:+ y = "" → x = "".
Proof. by destruct x. Qed.

Lemma join_empty sep l :
  Forall (λ b, b ≠ "") l → join sep l = "" → l = [].
Proof.
  destruct l as [|x [|y l]]; [done| |].
  - intros [Hx _]%Forall_cons. done.
  - intros [Hx _]%Forall_cons. cbn. by intros ?%string_app_empty.
Qed.

(** A page always leaves a block or an error. *)
Lemma page_added_leaves_a_record reader doc total_pages page_num :
  markdown (page_added reader doc total_pages page_num) ≠ []
  ∨ errors (page_added reader doc total_pages page_num) ≠ [].
Proof.
  unfold page_added. repeat case_match; cbn; auto.
Qed.

Lemma document_markdown_nil reader doc :
  document_markdown reader doc = [] ↔ pages doc = [].
Proof.
  unfold document_markdown, document_added. destruct doc as [ps].
  cbn [pages]. split.
  - destruct ps as [|p l]; [done|].
    cbn [length range seq]. rewrite pages_added_cons.
    rewrite markdown_state_app, errors_state_app.
    destruct (page_added_leaves_a_record reader {| pages := p :: l |}
                (S (length l)) 0) as [Hm | He].
    + intros [[H _]%app_eq_nil _]%app_eq_nil. done.
    + intros [_ H]%app_eq_nil. unfold summary in H.
      destruct (errors (page_added _ _ _ _)) as [|x er]; [done|].
      cbn in H. done.
  - by intros ->.
Qed.

(** X5: a document that opens renders to the empty string if and only if
    it has no page.  With at least one page, the first page leaves its
    section or an error, and neither is empty. *)
Theorem empty_render_iff_no_pages reader pdf doc s :
  open_pdf pdf = Ok doc →
  (process_pdf reader pdf s).1 = Return "" ↔ pages doc = [].
Proof.
  intros Hopen. rewrite process_pdf_result. unfold rendered. rewrite Hopen.
  rewrite <- (document_markdown_nil reader). split.
  - intros [= H]. by apply join_empty in H; [|apply document_blocks_nonempty].
  - by intros ->.
Qed.

(** The statement of [empty_render_iff_no_pages] on the sample without
    pages. *)
Lemma empty_render_iff_no_pages_witness :
  (process_pdf None Sample.no_pages ε).1 = Return ""
  ↔ pages {| pages := [] |} = [].
Proof.
  apply (empty_render_iff_no_pages None Sample.no_pages {| pages := [] |} ε).
  reflexivity.
Defined.

Lemma length_omap_filter {A B} (g : A → option B) (P : A → Prop)
    `{∀ x, Decision (P x)} (l : list A) :
  (∀ x, is_Some (g x) ↔ P x) →
  length (omap g l) = length (filter P l).
Proof.
  intros Hg. induction l as [|x l IH]; [done|].
  cbn [omap list_omap]. rewrite filter_cons.
  destruct (g x) as [y|] eqn:Hy; case_decide as HP; cbn [length];
    rewrite ?IH; try done.
  - destruct HP. apply Hg. by rewrite Hy.
  - apply Hg in HP. rewrite Hy in HP. by destruct HP.
Qed.

(** X6: what a batch packages and what it reports.  The archive gets one
    entry for every uploaded document that opens and has at least one page,
    the user gets one report for every document that does not open, and a
    document is passed over in silence exactly when it opens with no
    page. *)
Theorem batch_by_document splitext reader (files : list uploaded_file) s :
  let run := Process_Files splitext reader true files s in
  length (zipf run.2)
  = length (zipf s)
    + length (filter (λ f, opens_with_pages (getvalue f) = true) files)
  ∧ length (st_errors (events run.2))
    = length (st_errors (events s))
      + length (filter (λ f, fails_to_open (getvalue f) = true) files)
  ∧ ∀ f, dropped splitext reader f = true
         ↔ ∃ doc, open_pdf (getvalue f) = Ok doc ∧ pages doc = [].
Proof.
  cbn zeta.
  assert (∀ f, is_Some (packaged splitext reader f)
               ↔ opens_with_pages (getvalue f) = true) as Hpack.
  { intros f. unfold packaged, opens_with_pages, rendered.
    destruct (open_pdf (getvalue f)) as [doc|e]; [|by split; [intros []|]].
    pose proof (document_markdown_nil reader doc) as Hnil.
    pose proof (join_empty (nl +:+ nl) _ (document_blocks_nonempty reader doc))
      as Hjoin.
    destruct (join _ _) eqn:Hj; cbn.
    - rewrite (proj1 Hnil); [|by apply Hjoin]. by split; [intros []|].
    - split; [|eauto]. intros _.
      destruct (pages doc); [|done].
      by rewrite (proj2 Hnil) in Hj. }
  assert (∀ f, is_Some (reported reader f)
               ↔ fails_to_open (getvalue f) = true) as Hrep.
  { intros f. unfold reported, fails_to_open, rendered.
    destruct (open_pdf (getvalue f)); cbn;
      [split; [by intros [? ?] | done] | split; [done | eauto]]. }
  assert (∃ s', for_each (process_file splitext reader) (enumerate files) s
                = (Return tt, s')
                ∧ Process_Files splitext reader true files s = (Return tt, s'))
    as (s' & Hloop & Hrun).
  { destruct (process_files_run splitext reader (enumerate files) s)
      as (s' & Hloop & _).
    exists s'. split; [done|]. unfold Process_Files, when.
    destruct files as [|f l]; cbn [andb truthy]; [|done].
    compute in Hloop. by injection Hloop as <-. }
  destruct (process_files_run splitext reader (enumerate files) s)
    as (s'' & Hloop' & Hz & He).
  rewrite Hloop in Hloop'. injection Hloop' as <-.
  unfold enumerate in Hz, He. rewrite snd_enumerate_from in Hz, He.
  rewrite Hrun. cbn [snd]. split_and!.
  - by rewrite Hz, length_app, (length_omap_filter _ _ _ Hpack).
  - by rewrite He, length_app, (length_omap_filter _ _ _ Hrep).
  - intros f. unfold dropped, packaged, reported, rendered.
    destruct (open_pdf (getvalue f)) as [doc|e]; [|by split; [|intros (? & ? & ?)]].
    pose proof (document_markdown_nil reader doc) as Hnil.
    pose proof (join_empty (nl +:+ nl) _ (document_blocks_nonempty reader doc))
      as Hjoin.
    destruct (join _ _) eqn:Hj; cbn.
    + split; [|done]. intros _. exists doc. split; [done|].
      by apply Hnil, Hjoin.
    + split; [done|]. intros (doc' & [= <-] & Hp).
      by rewrite (proj2 Hnil Hp) in Hj.
Qed.

(** The statement of [only_opening_is_fatal] on the document of two pages,
    one of which fails. *)
Lemma only_opening_is_fatal_witness :
  (raises (process_pdf None Sample.two_pages ε).1 = true
   ↔ (50 * 1024 * 1024 < pdf_len Sample.two_pages)%N
     ∨ ∃ e, fitz_open Sample.two_pages = Err e)
  ∧ (raises (process_pdf None Sample.two_pages ε).1 = false
     ↔ ∃ md_content, (process_pdf None Sample.two_pages ε).1 = Return md_content).
Proof. apply (only_opening_is_fatal None Sample.two_pages ε). Defined.

(** The statement of [batch_by_document] on three uploads: one with pages,
    one without, one that does not open. *)
Lemma batch_by_document_witness :
  let files := [Sample.upload "scan.pdf" Sample.two_pages;
                Sample.upload "empty.pdf" Sample.no_pages;
                Sample.upload "broken.pdf" Sample.unreadable] in
  let run := Process_Files posix_splitext None true files ε in
  length (zipf run.2)
  = length (zipf ε)
    + length (filter (λ f, opens_with_pages (getvalue f) = true) files)
  ∧ length (st_errors (events run.2))
    = length (st_errors (events ε))
      + length (filter (λ f, fails_to_open (getvalue f) = true) files)
  ∧ ∀ f, dropped posix_splitext None f = true
         ↔ ∃ doc, open_pdf (getvalue f) = Ok doc ∧ pages doc = [].
Proof.
  apply (batch_by_document posix_splitext None
           [Sample.upload "scan.pdf" Sample.two_pages;
            Sample.upload "empty.pdf" Sample.no_pages;
            Sample.upload "broken.pdf" Sample.unreadable] ε).
Defined.

(** ** Pages that fail *)

Lemma page_in_range (doc : document) page_num x :
  pages doc !! page_num = Some x → page_num ∈ range (length (pages doc)).
Proof.
  intros H%lookup_lt_Some. unfold range. apply elem_of_seq. lia.
Qed.

(** X7: when [doc.load_page] raises [e], the page's iteration records
    exactly one error, [Failed to process page n: e], and nothing else: the
    page is not measured, no text is asked for, no image is looked at.  The
    document has no section and no image heading for that page, the error
    is among its errors, and the loop goes on with the next page. *)
Theorem page_load_failure reader pdf doc page_num e s :
  open_pdf pdf = Ok doc →
  pages doc !! page_num = Some (Err e) →
  let N := length (pages doc) in
  let body := process_page reader doc N in
  (∀ s0 rest,
     let s1 := s0 ⊕ added [] [err_page page_num e] []
                      (page_start N page_num ++ [doc_load_page page_num]) in
     body page_num s0 = (Return tt, s1)
     ∧ for_each body (page_num :: rest) s0 = for_each body rest s1)
  ∧ (∀ text, page_section page_num text ∉ markdown (process_pdf reader pdf s).2)
  ∧ (images_heading page_num ∉ markdown (process_pdf reader pdf s).2)
  ∧ err_page page_num e ∈ errors (process_pdf reader pdf s).2.
Proof.
  intros Hopen Hpage N body.
  assert (page_added reader doc N page_num
          = added [] [err_page page_num e] []
              (page_start N page_num ++ [doc_load_page page_num])) as Hadd.
  { unfold page_added. by rewrite Hpage. }
  assert (∀ s0, body page_num s0
                = (Return tt, s0 ⊕ page_added reader doc N page_num)) as Hrun.
  { intros s0. unfold body. rewrite process_page_run. f_equal.
    unfold page_result. by rewrite Hpage. }
  split_and!.
  - intros s0 rest. cbn zeta. rewrite <- Hadd. split; [apply Hrun|].
    by rewrite for_each_cons, Hrun.
  - intros text. rewrite (process_pdf_markdown _ _ doc) by done.
    rewrite page_section_in_document. unfold page_text. by rewrite Hpage.
  - rewrite (process_pdf_markdown _ _ doc) by done.
    rewrite images_heading_in_document. unfold page_images.
    rewrite Hpage. by intros [].
  - rewrite (process_pdf_opened _ _ doc) by done. cbn [snd errors].
    apply (errors_pages_added _ _ _ _ page_num).
    + by eapply page_in_range.
    + fold N. rewrite Hadd. cbn. apply list_elem_of_here.
Qed.

(** The statement of [page_load_failure] on the second of three pages. *)
Lemma page_load_failure_witness :
  let reader := Some easyocr_Reader in
  let body := process_page reader Sample2.torn 3 in
  (∀ s0 rest,
     let s1 := s0 ⊕ added [] [err_page 1 "bad page tree"] []
                      (page_start 3 1 ++ [doc_load_page 1]) in
     body 1 s0 = (Return tt, s1)
     ∧ for_each body (1 :: rest) s0 = for_each body rest s1)
  ∧ (∀ text, page_section 1 text
             ∉ markdown (process_pdf reader Sample2.torn_pdf ε).2)
  ∧ (images_heading 1 ∉ markdown (process_pdf reader Sample2.torn_pdf ε).2)
  ∧ err_page 1 "bad page tree" ∈ errors (process_pdf reader Sample2.torn_pdf ε).2.
Proof.
  apply (page_load_failure (Some easyocr_Reader) Sample2.torn_pdf Sample2.torn
           1 "bad page tree" ε); reflexivity.
Defined.

(** X8: when [page.get_images] raises [e] after the text was extracted, the
    page keeps its section: the iteration records the section, then exactly
    one error, [Failed to process page n: e], no heading and no image.  The
    document has the section and no image heading for that page. *)
Theorem image_listing_failure reader pdf doc page_num p text e s :
  open_pdf pdf = Ok doc →
  pages doc !! page_num = Some (Ok p) →
  get_text p = Ok text →
  get_images p = Err e →
  let N := length (pages doc) in
  (∀ s0,
     process_page reader doc N page_num s0
     = (Return tt,
        s0 ⊕ added [page_section page_num text] [err_page page_num e]
               (if page_large p then [warn_page_large page_num] else [])
               (page_start N page_num ++ [doc_load_page page_num])))
  ∧ page_section page_num text ∈ markdown (process_pdf reader pdf s).2
  ∧ (images_heading page_num ∉ markdown (process_pdf reader pdf s).2)
  ∧ err_page page_num e ∈ errors (process_pdf reader pdf s).2.
Proof.
  intros Hopen Hpage Htext Himgs N.
  assert (page_added reader doc N page_num
          = added [page_section page_num text] [err_page page_num e]
              (if page_large p then [warn_page_large page_num] else [])
              (page_start N page_num ++ [doc_load_page page_num])) as Hadd.
  { unfold page_added. by rewrite Hpage, Htext, Himgs. }
  split_and!.
  - intros s0. rewrite process_page_run, Hadd. f_equal.
    unfold page_result. by rewrite Hpage, Htext.
  - rewrite (process_pdf_markdown _ _ doc) by done.
    apply page_section_in_document. unfold page_text. by rewrite Hpage, Htext.
  - rewrite (process_pdf_markdown _ _ doc) by done.
    rewrite images_heading_in_document. unfold page_images.
    rewrite Hpage, Htext, Himgs. by intros [].
  - rewrite (process_pdf_opened _ _ doc) by done. cbn [snd errors].
    apply (errors_pages_added _ _ _ _ page_num).
    + by eapply page_in_range.
    + fold N. rewrite Hadd. cbn. apply list_elem_of_here.
Qed.

(** The statement of [image_listing_failure] on a page whose images cannot
    be listed. *)
Lemma image_listing_failure_witness :
  let reader := Some easyocr_Reader in
  (∀ s0,
     process_page reader Sample2.no_listing 1 0 s0
     = (Return tt,
        s0 ⊕ added [page_section 0 "Body"] [err_page 0 "xref table damaged"]
               (if page_large Sample2.no_listing_page
                then [warn_page_large 0] else [])
               (page_start 1 0 ++ [doc_load_page 0])))
  ∧ page_section 0 "Body"
    ∈ markdown (process_pdf reader Sample2.no_listing_pdf ε).2
  ∧ (images_heading 0 ∉ markdown (process_pdf reader Sample2.no_listing_pdf ε).2)
  ∧ err_page 0 "xref table damaged"
    ∈ errors (process_pdf reader Sample2.no_listing_pdf ε).2.
Proof.
  apply (image_listing_failure (Some easyocr_Reader) Sample2.no_listing_pdf
           Sample2.no_listing 0 Sample2.no_listing_page "Body"
           "xref table damaged" ε); reflexivity.
Defined.

(** X9: every page of a document that opens is accounted for: the document
    has the page's section, or its errors hold one that names the page
    ([Failed to process page n] or [Failed to extract text from page
    n]). *)
Theorem every_page_accounted reader pdf doc page_num s :
  open_pdf pdf = Ok doc →
  page_num < length (pages doc) →
  let run := process_pdf reader pdf s in
  (∃ text, page_section page_num text ∈ markdown run.2)
  ∨ (∃ e, err_page page_num e ∈ errors run.2)
  ∨ (∃ e, err_text page_num e ∈ errors run.2).
Proof.
  intros Hopen Hlt run. unfold run.
  rewrite (process_pdf_markdown _ _ doc) by done.
  rewrite (process_pdf_opened _ _ doc) by done. cbn [snd errors].
  destruct (lookup_lt_is_Some_2 (pages doc) page_num Hlt) as [r Hpage].
  assert (∀ x, x ∈ errors (page_added reader doc (length (pages doc)) page_num) →
               x ∈ errors (document_added reader doc)) as Herr.
  { intros x. apply errors_pages_added. by eapply page_in_range. }
  destruct r as [p|e].
  - destruct (get_text p) as [text|e] eqn:Htext.
    + left. exists text. apply page_section_in_document.
      unfold page_text. by rewrite Hpage, Htext.
    + right; right. exists e. apply Herr.
      unfold page_added. rewrite Hpage, Htext. cbn. apply list_elem_of_here.
  - right; left. exists e. apply Herr.
    unfold page_added. rewrite Hpage. cbn. apply list_elem_of_here.
Qed.

(** The statement of [every_page_accounted] on the torn page. *)
Lemma every_page_accounted_witness :
  let run := process_pdf None Sample2.torn_pdf ε in
  (∃ text, page_section 1 text ∈ markdown run.2)
  ∨ (∃ e, err_page 1 e ∈ errors run.2)
  ∨ (∃ e, err_text 1 e ∈ errors run.2).
Proof.
  apply (every_page_accounted None Sample2.torn_pdf Sample2.torn 1 ε).
  - reflexivity.
  - cbn. lia.
Defined.

(** X10: the sections of a document that opens are the sections of the
    pages whose text was extracted, each once, in page order, with the
    1-based page number in the heading and the page's text after a blank
    line; no other block begins like a section. *)
Theorem sections_in_page_order reader pdf doc s :
  open_pdf pdf = Ok doc →
  filter (λ b, is_page_section b = true) (markdown (process_pdf reader pdf s).2)
  = omap (λ page_num,
            (λ text, "## Page " +:+ str (page_num + 1) +:+ nl +:+ nl +:+ text)
            <$> page_text doc page_num)
         (range (length (pages doc))).
Proof.
  intros Hopen. rewrite (process_pdf_markdown _ _ doc) by done.
  apply document_sections.
Qed.

(** The statement of [sections_in_page_order] on the three pages, the
    second of them torn. *)
Lemma sections_in_page_order_witness :
  filter (λ b, is_page_section b = true)
         (markdown (process_pdf None Sample2.torn_pdf ε).2)
  = omap (λ page_num,
            (λ text, "## Page " +:+ str (page_num + 1) +:+ nl +:+ nl +:+ text)
            <$> page_text Sample2.torn page_num)
         (range (length (pages Sample2.torn))).
Proof.
  apply (sections_in_page_order None Sample2.torn_pdf Sample2.torn ε).
  reflexivity.
Defined.

(** ** Large pages *)

Lemma page_large_true p :
  (MAX_PAGE_PIXELS < rect_width p * rect_height p)%Q → page_large p = true.
Proof.
  intros Hlt. unfold page_large. apply negb_true_iff.
  destruct (Qle_bool _ _) eqn:Hle; [|done].
  apply Qle_bool_iff in Hle. by apply Qlt_not_le in Hlt.
Qed.

Lemma page_large_false p :
  (rect_width p * rect_height p <= MAX_PAGE_PIXELS)%Q → page_large p = false.
Proof.
  intros Hle. unfold page_large. apply negb_false_iff.
  by apply Qle_bool_iff.
Qed.

(** X11: the size of a page is never fatal and changes nothing but one
    warning.  A page whose area is over ten million is processed exactly as
    a page with the same text and images whose area is at most ten million
    (the ceiling included): same end of the iteration, same blocks, errors
    and calls; its warnings are the other page's, with [Page n too large]
    put before them. *)
Theorem large_page_only_warns reader doc doc' total_pages page_num p p' s :
  pages doc !! page_num = Some (Ok p) →
  pages doc' !! page_num = Some (Ok p') →
  get_text p' = get_text p →
  get_images p' = get_images p →
  (MAX_PAGE_PIXELS < rect_width p * rect_height p)%Q →
  (rect_width p' * rect_height p' <= MAX_PAGE_PIXELS)%Q →
  let run := process_page reader doc total_pages page_num s in
  let run' := process_page reader doc' total_pages page_num s in
  run.1 = run'.1
  ∧ markdown run.2 = markdown run'.2
  ∧ errors run.2 = errors run'.2
  ∧ events run.2 = events run'.2
  ∧ ∃ W, warnings run'.2 = warnings s ++ W
         ∧ warnings run.2 = warnings s ++ warn_page_large page_num :: W.
Proof.
  intros Hpage Hpage' Htext Himgs Hlarge%page_large_true Hsmall%page_large_false.
  cbn zeta. rewrite !process_page_run. cbn [fst snd].
  unfold page_result, page_added.
  rewrite Hpage, Hpage', Htext, Himgs, Hlarge, Hsmall.
  destruct (get_text p) as [text|e]; [destruct (get_images p) as [l|e]|];
    (split_and!; [done..|]); eexists; split; reflexivity.
Qed.

(** The statement of [large_page_only_warns] on a poster of 5000 by 4000
    points and the same page at 595 by 842. *)
Lemma large_page_only_warns_witness :
  let doc := {| pages := [Ok Sample2.poster_page] |} in
  let doc' := {| pages := [Ok (with_rect 595 842 Sample2.poster_page)] |} in
  let run := process_page None doc 1 0 ε in
  let run' := process_page None doc' 1 0 ε in
  run.1 = run'.1
  ∧ markdown run.2 = markdown run'.2
  ∧ errors run.2 = errors run'.2
  ∧ events run.2 = events run'.2
  ∧ ∃ W, warnings run'.2 = warnings ε ++ W
         ∧ warnings run.2 = warnings ε ++ warn_page_large 0 :: W.
Proof.
  apply (large_page_only_warns None
           {| pages := [Ok Sample2.poster_page] |}
           {| pages := [Ok (with_rect 595 842 Sample2.poster_page)] |}
           1 0 Sample2.poster_page (with_rect 595 842 Sample2.poster_page) ε);
    try reflexivity.
  unfold Qle. cbn. lia.
Defined.

(** ** Images, one by one *)

Lemma records_state_app s d : records (s ⊕ d) = records s + records d.
Proof. unfold records, state_app. cbn. rewrite !length_app. lia. Qed.

Lemma image_added_one_record reader page_num entry :
  records (image_added reader page_num entry) = 1.
Proof.
  destruct entry as [idx i]. unfold image_added, ocr_added.
  repeat case_match; done.
Qed.

Lemma images_added_records reader page_num entries :
  records (images_added reader page_num entries) = length entries.
Proof.
  induction entries as [|entry l IH]; [done|].
  rewrite images_added_cons, records_state_app, image_added_one_record, IH.
  done.
Qed.

Lemma length_enumerate_from {A} i (l : list A) :
  length (enumerate_from i l) = length l.
Proof. revert i. induction l as [|x l IH]; intros i; cbn; [done|]. by rewrite IH. Qed.

(** X12: no image is passed over in silence.  Whatever happens to an image
    (it cannot be extracted, the gate turns it away, its file cannot be
    written, recognition fails, finds nothing or finds text), its iteration
    leaves exactly one record, a block, an error or a warning; the loop over
    the images of a page leaves as many records as the page has images. *)
Theorem one_record_per_image reader page_num img_idx i (img_list : list img) s :
  records (process_image reader page_num (img_idx, i) s).2 = records s + 1
  ∧ records (for_each (process_image reader page_num) (enumerate img_list) s).2
    = records s + length img_list.
Proof.
  rewrite process_image_run, process_images_run. cbn [snd].
  rewrite !records_state_app, image_added_one_record, images_added_records.
  unfold enumerate. by rewrite length_enumerate_from.
Qed.

(** The statement of [one_record_per_image] on the three sample images,
    the second of them too large. *)
Lemma one_record_per_image_witness :
  let reader := Some easyocr_Reader in
  records (process_image reader 0 (1, Sample.entry Sample.huge_image "/tmp/b.png") ε).2
  = records ε + 1
  ∧ records (for_each (process_image reader 0) (enumerate Sample.three_images) ε).2
    = records ε + length Sample.three_images.
Proof.
  apply (one_record_per_image (Some easyocr_Reader) 0 1
           (Sample.entry Sample.huge_image "/tmp/b.png") Sample.three_images ε).
Defined.

(** X13: what recognition leaves for an admitted image whose file was
    written, with an engine.  The engine is called once, between the write
    and the deletion.  Lines give one block, [Image k OCR:] in bold with the
    1-based number of the image, then the lines joined by single spaces;
    no line gives one warning, [No text found]; an exception gives one
    error, [OCR Error], with its message. *)
Theorem recognition_outcomes r page_num img_idx i image p s :
  written i = Some (image, p) →
  let evs := [file_create p; file_write p image; reader_readtext p;
              unlink p (unlinked i)] in
  process_image (Some r) page_num (img_idx, i) s
  = (Return tt,
     s ⊕ match easyocr_lines image with
         | Ok [] =>
             added [] []
               ["⚠️ No text found in image " +:+ str (img_idx + 1)
                +:+ " on page " +:+ str (page_num + 1)] evs
         | Ok ocr_results =>
             added ["**Image " +:+ str (img_idx + 1) +:+ " OCR:**" +:+ nl
                    +:+ join " " ocr_results +:+ nl] [] [] evs
         | Err e =>
             added [] ["❌ OCR Error for image " +:+ str (img_idx + 1)
                       +:+ " on page " +:+ str (page_num + 1) +:+ ": " +:+ e]
               [] evs
         end).
Proof.
  intros Hw evs. rewrite process_image_run. cbn [snd].
  rewrite (image_added_written _ _ _ _ image p Hw).
  apply written_inv in Hw as (Hext & _ & _ & Ho & Ha).
  unfold image_result. rewrite Hext, Ho, Ha. reflexivity.
Qed.

(** The statement of [recognition_outcomes] on the image that reads
    "WORLD". *)
Lemma recognition_outcomes_witness :
  let i := Sample.entry Sample.world "/tmp/tmp1.png" in
  let evs := [file_create "/tmp/tmp1.png"; file_write "/tmp/tmp1.png" Sample.world;
              reader_readtext "/tmp/tmp1.png";
              unlink "/tmp/tmp1.png" (unlinked i)] in
  process_image (Some easyocr_Reader) 0 (0, i) ε
  = (Return tt,
     ε ⊕ match easyocr_lines Sample.world with
         | Ok [] =>
             added [] []
               ["⚠️ No text found in image " +:+ str (0 + 1)
                +:+ " on page " +:+ str (0 + 1)] evs
         | Ok ocr_results =>
             added ["**Image " +:+ str (0 + 1) +:+ " OCR:**" +:+ nl
                    +:+ join " " ocr_results +:+ nl] [] [] evs
         | Err e =>
             added [] ["❌ OCR Error for image " +:+ str (0 + 1)
                       +:+ " on page " +:+ str (0 + 1) +:+ ": " +:+ e]
               [] evs
         end).
Proof.
  apply (recognition_outcomes easyocr_Reader 0 0
           (Sample.entry Sample.world "/tmp/tmp1.png") Sample.world
           "/tmp/tmp1.png" ε).
  reflexivity.
Defined.

Lemma filter_readtext_image_added r page_num entry :
  filter (λ e, is_readtext e = true)
         (events (image_added (Some r) page_num entry))
  = option_list (reader_readtext <$> written_path entry.2).
Proof.
  destruct entry as [idx i].
  unfold image_added, ocr_added, written_path, written, admitted. cbn [snd].
  destruct (extract_image i) as [image|]; [|done].
  destruct (oversize image); [by repeat case_match|].
  destruct (allowed_format image); cbn [negb andb]; [|by repeat case_match].
  destruct (NamedTemporaryFile i) as [p|]; [|done].
  destruct (f_write i) as [u|]; [|done].
  by repeat case_match.
Qed.

Lemma filter_readtext_images_added r page_num entries :
  filter (λ e, is_readtext e = true)
         (events (images_added (Some r) page_num entries))
  = reader_readtext <$> omap written_path entries.*2.
Proof.
  induction entries as [|entry l IH]; [done|].
  rewrite images_added_cons, events_state_app, filter_app,
    filter_readtext_image_added, IH.
  cbn. by destruct (written_path entry.2).
Qed.

(** X14: with an engine, the loop over the images of a page calls
    [reader.readtext] once for every image that passed the gate and had its
    transient file written, on that file and in the order of the images,
    and for no other image: a single attempt each, none for an image that
    was not extracted, was turned away, or has no file. *)
Theorem engine_called_once_per_written_image r page_num
    (img_list : list img) s :
  let run := for_each (process_image (Some r) page_num) (enumerate img_list) s in
  filter (λ e, is_readtext e = true) (events run.2)
  = filter (λ e, is_readtext e = true) (events s)
    ++ (reader_readtext <$> omap written_path img_list).
Proof.
  cbn zeta. rewrite process_images_run. cbn [snd].
  rewrite events_state_app, filter_app, filter_readtext_images_added.
  unfold enumerate. by rewrite snd_enumerate_from.
Qed.

(** The statement of [engine_called_once_per_written_image] on the three
    sample images, the second of them too large. *)
Lemma engine_called_once_per_written_image_witness :
  let run := for_each (process_image (Some easyocr_Reader) 0)
                      (enumerate Sample.three_images) ε in
  filter (λ e, is_readtext e = true) (events run.2)
  = filter (λ e, is_readtext e = true) (events ε)
    ++ (reader_readtext <$> omap written_path Sample.three_images).
Proof.
  apply (engine_called_once_per_written_image easyocr_Reader 0
           Sample.three_images ε).
Defined.

(** ** Transient files *)

(** X15: a transient file that was created but could not be written is
    never deleted.  When [f.write] raises [e], the failure is recorded as
    one error, [Failed to process image], the engine is not called and
    [os.unlink] is not attempted: the empty file is left behind. *)
Theorem unwritten_file_left_behind reader page_num img_idx i image p e s :
  extract_image i = Ok image →
  admitted image = true →
  NamedTemporaryFile i = Ok p →
  f_write i = Err e →
  let run := process_image reader page_num (img_idx, i) s in
  run = (Return tt,
         s ⊕ added [] [err_image page_num img_idx e] [] [file_create p])
  ∧ fs_of (events run.2) !! p = Some None.
Proof.
  intros Hext [Ho Ha]%andb_prop Htmp Hw. apply negb_true_iff in Ho.
  cbn zeta. rewrite process_image_run. cbn [snd].
  unfold image_result, image_added. rewrite Hext, Ho, Ha, Htmp, Hw.
  split; [done|].
  cbn. rewrite fs_of_snoc. cbn [fs_step]. apply lookup_insert_eq.
Qed.

(** The statement of [unwritten_file_left_behind] on a full disk. *)
Lemma unwritten_file_left_behind_witness :
  let run := process_image None 0 (0, Sample2.disk_full) ε in
  run = (Return tt,
         ε ⊕ added [] [err_image 0 0 "No space left on device"] []
               [file_create "/tmp/tmp4.png"])
  ∧ fs_of (events run.2) !! "/tmp/tmp4.png" = Some None.
Proof.
  apply (unwritten_file_left_behind None 0 0 Sample2.disk_full Sample.world
           "/tmp/tmp4.png" "No space left on device" ε); reflexivity.
Defined.

Lemma dom_created_then_deleted p (v w : option image_bytes)
    (fs : gmap string (option image_bytes)) :
  dom (delete p (<[p:=v]> (<[p:=w]> fs))) ⊆ dom fs.
Proof.
  intros q. rewrite dom_delete, !dom_insert.
  rewrite elem_of_difference, !elem_of_union, !elem_of_singleton. tauto.
Qed.

Lemma fs_image_added reader page_num entry fs :
  tidy entry.2 = true →
  dom (fold_left fs_step (events (image_added reader page_num entry)) fs)
  ⊆ dom fs.
Proof.
  destruct entry as [idx i]. unfold tidy, image_added, ocr_added. cbn [snd].
  destruct (f_write i) as [u|]; [|done].
  destruct (os_unlink i) as [u'|] eqn:Hu; [|done]. intros _.
  unfold unlinked. rewrite Hu.
  repeat case_match; cbn; try done; apply dom_created_then_deleted.
Qed.

Lemma fs_images_added reader page_num entries fs :
  Forall (λ i, tidy i = true) entries.*2 →
  dom (fold_left fs_step (events (images_added reader page_num entries)) fs)
  ⊆ dom fs.
Proof.
  revert fs. induction entries as [|entry l IH]; intros fs; [done|].
  cbn [fmap list_fmap]. intros [Hi Hl]%Forall_cons.
  rewrite images_added_cons, events_state_app, fold_left_app.
  etransitivity; [by apply IH|]. by apply fs_image_added.
Qed.

Lemma fs_pages_added reader doc total_pages page_nums fs :
  (∀ page_num, Forall (λ i, tidy i = true) (page_images doc page_num)) →
  dom (fold_left fs_step
         (events (pages_added reader doc total_pages page_nums)) fs)
  ⊆ dom fs.
Proof.
  intros Htidy. revert fs. induction page_nums as [|n l IH]; intros fs; [done|].
  rewrite pages_added_cons, events_state_app, fold_left_app.
  etransitivity; [apply IH|].
  rewrite events_page_added. unfold page_start. cbn [app fold_left fs_step].
  apply fs_images_added. unfold enumerate. rewrite snd_enumerate_from.
  apply Htidy.
Qed.

(** X16: a document leaves no transient file of its own behind when, for
    each of its images, [f.write] and [os.unlink] go through: after
    [process_pdf], every transient file there is was there before, whatever
    the gate, the engine and the decoder did. *)
Theorem no_transient_file_left reader pdf doc s :
  open_pdf pdf = Ok doc →
  (∀ page_num, Forall (λ i, tidy i = true) (page_images doc page_num)) →
  dom (fs_of (events (process_pdf reader pdf s).2)) ⊆ dom (fs_of (events s)).
Proof.
  intros Hopen Htidy.
  rewrite (process_pdf_opened _ _ doc) by done. cbn [snd events].
  rewrite fs_of_app. unfold document_events.
  rewrite !fold_left_app. cbn [fold_left fs_step].
  by apply fs_pages_added.
Qed.

(** The statement of [no_transient_file_left] on the page of three images,
    one of them refused. *)
Lemma no_transient_file_left_witness :
  dom (fs_of (events (process_pdf (Some easyocr_Reader) Sample.figures_pdf ε).2))
  ⊆ dom (fs_of (events ε)).
Proof.
  apply (no_transient_file_left (Some easyocr_Reader) Sample.figures_pdf
           Sample.figures ε).
  - reflexivity.
  - intros [|n]; [by repeat constructor|].
    destruct n; constructor.
Defined.

(** ** Closing the document *)

Lemma page_events_no_close evs :
  Forall (λ e, page_event e = true) evs → doc_close ∉ evs.
Proof.
  intros Hall Hin. eapply Forall_forall in Hall; [|done]. done.
Qed.

(** X17: a document that opened is closed exactly once, whatever happened
    to its pages and images: the calls of [process_pdf] end with the two
    widgets being cleared and [doc.close()], and the document is not closed
    before that. *)
Theorem document_closed_once reader pdf doc s :
  open_pdf pdf = Ok doc →
  ∃ during,
    events (process_pdf reader pdf s).2
    = events s ++ during ++ [progress_bar_empty; status_text_empty; doc_close]
    ∧ doc_close ∉ during.
Proof.
  intros Hopen. rewrite (process_pdf_opened _ _ doc) by done. cbn [snd events].
  exists ([st_progress 0; st_empty] ++ events (document_added reader doc)).
  split.
  - unfold document_events. by rewrite <- !app_assoc.
  - intros [Hin | Hin]%elem_of_app.
    + by repeat (apply elem_of_cons in Hin as [? | Hin]; [done|]);
        apply elem_of_nil in Hin.
    + by eapply page_events_no_close; [apply pages_added_events|].
Qed.

(** The statement of [document_closed_once] on the document whose second
    page fails. *)
Lemma document_closed_once_witness :
  ∃ during,
    events (process_pdf (Some easyocr_Reader) Sample.two_pages ε).2
    = events ε ++ during ++ [progress_bar_empty; status_text_empty; doc_close]
    ∧ doc_close ∉ during.
Proof.
  apply (document_closed_once (Some easyocr_Reader) Sample.two_pages
           {| pages := [Sample.a4 (Ok "Hello") [Sample.entry Sample.world "/tmp/tmp1.png"];
                        Sample.a4 (Err "boom") []] |} ε).
  reflexivity.
Defined.

(** ** The summary *)

Lemma kinds_of_page_section b :
  is_page_section b = true →
  is_error_line b = false ∧ is_warning_line b = false ∧ startswith nl b = false.
Proof.
  destruct b as [|a b]; [done|].
  unfold is_page_section, is_error_line, is_warning_line. cbn.
  destruct (Ascii.eqb _ a) eqn:Ha; [|by cbn].
  apply Ascii.eqb_eq in Ha as <-. by vm_compute.
Qed.

Lemma kinds_of_images_heading b :
  is_images_heading b = true →
  is_error_line b = false ∧ is_warning_line b = false ∧ startswith nl b = false.
Proof.
  destruct b as [|a b]; [done|].
  unfold is_images_heading, is_error_line, is_warning_line. cbn.
  destruct (Ascii.eqb _ a) eqn:Ha; [|by cbn].
  apply Ascii.eqb_eq in Ha as <-. by vm_compute.
Qed.

Lemma kinds_of_ocr_block_diag b :
  is_ocr_block b = true →
  is_error_line b = false ∧ is_warning_line b = false ∧ startswith nl b = false.
Proof.
  destruct b as [|a b]; [done|].
  unfold is_ocr_block, is_error_line, is_warning_line. cbn.
  destruct (Ascii.eqb _ a) eqn:Ha; [|by cbn].
  apply Ascii.eqb_eq in Ha as <-. by vm_compute.
Qed.

Lemma error_line_not_warning b :
  is_error_line b = true → is_warning_line b = false.
Proof.
  destruct b as [|a [|a2 b]]; [done| |].
  - unfold is_error_line. cbn. by rewrite andb_false_r.
  - unfold is_error_line, is_warning_line. cbn.
    destruct (Ascii.eqb _ a) eqn:Ha; [|by cbn].
    apply Ascii.eqb_eq in Ha as <-.
    destruct (Ascii.eqb _ a2) eqn:Ha2; [|by cbn].
    apply Ascii.eqb_eq in Ha2 as <-. by vm_compute.
Qed.

Lemma warning_line_not_error b :
  is_warning_line b = true → is_error_line b = false.
Proof.
  intros Hw. destruct (is_error_line b) eqn:He; [|done].
  apply error_line_not_warning in He. congruence.
Qed.

Lemma page_added_blocks_kinds reader doc total_pages page_num :
  Forall (λ b, is_error_line b = false ∧ is_warning_line b = false
               ∧ startswith nl b = false)
         (markdown (page_added reader doc total_pages page_num)).
Proof.
  rewrite markdown_page_added. repeat (apply Forall_app; split).
  - destruct (page_text doc page_num); by repeat constructor.
  - destruct (truthy (page_images doc page_num)); by repeat constructor.
  - eapply Forall_impl; [apply images_added_well_worded|].
    apply kinds_of_ocr_block_diag.
Qed.

Lemma pages_added_blocks_kinds reader doc total_pages page_nums :
  Forall (λ b, is_error_line b = false ∧ is_warning_line b = false
               ∧ startswith nl b = false)
         (markdown (pages_added reader doc total_pages page_nums)).
Proof.
  induction page_nums as [|n l IH]; [constructor|].
  rewrite pages_added_cons, markdown_state_app.
  apply Forall_app; split; [apply page_added_blocks_kinds | done].
Qed.

Lemma filter_all {A} (P : A → Prop) `{∀ x, Decision (P x)} (l : list A) :
  Forall P l → filter P l = l.
Proof.
  induction 1 as [|x l Hx _ IH]; [done|].
  by rewrite filter_cons_True, IH.
Qed.

(** X18: the [Processing Summary] heading is among the blocks of a
    document that opened if and only if an error or a warning was recorded
    while it was processed. *)
Theorem summary_iff_diagnostics reader pdf doc s :
  open_pdf pdf = Ok doc →
  let run := process_pdf reader pdf s in
  nl +:+ "## Processing Summary" ∈ markdown run.2
  ↔ errors run.2 ≠ [] ∨ warnings run.2 ≠ [].
Proof.
  intros Hopen run. unfold run.
  rewrite (process_pdf_opened _ _ doc) by done. cbn [snd markdown errors warnings].
  unfold document_markdown. fold (document_added reader doc).
  rewrite elem_of_app. split.
  - intros [Hin | Hin].
    + pose proof (pages_added_blocks_kinds reader doc (length (pages doc))
                    (range (length (pages doc)))) as Hk.
      eapply Forall_forall in Hk as (_ & _ & Hnl); [|exact Hin]. done.
    + unfold summary in Hin.
      destruct (errors (document_added reader doc)),
        (warnings (document_added reader doc)); auto.
      by apply elem_of_nil in Hin.
  - intros Hd. right. unfold summary.
    destruct (errors (document_added reader doc)) as [|x er],
      (warnings (document_added reader doc)) as [|y wa]; cbn;
      [by destruct Hd | apply list_elem_of_here ..].
Qed.

(** The statement of [summary_iff_diagnostics] on the document whose second
    page fails. *)
Lemma summary_iff_diagnostics_witness :
  let run := process_pdf None Sample.two_pages ε in
  nl +:+ "## Processing Summary" ∈ markdown run.2
  ↔ errors run.2 ≠ [] ∨ warnings run.2 ≠ [].
Proof.
  apply (summary_iff_diagnostics None Sample.two_pages
           {| pages := [Sample.a4 (Ok "Hello") [Sample.entry Sample.world "/tmp/tmp1.png"];
                        Sample.a4 (Err "boom") []] |} ε).
  reflexivity.
Defined.

Lemma filter_errors_summary er wa :
  Forall (λ b, is_error_line b = true) er →
  Forall (λ b, is_warning_line b = true) wa →
  filter (λ b, is_error_line b = true) (summary er wa) = er
  ∧ filter (λ b, is_warning_line b = true) (summary er wa) = wa.
Proof.
  intros Her Hwa.
  assert (filter (λ b, is_error_line b = true) wa = []) as Hew.
  { apply filter_none. eapply Forall_impl; [exact Hwa|].
    intros b Hb. by rewrite (warning_line_not_error b Hb). }
  assert (filter (λ b, is_warning_line b = true) er = []) as Hwe.
  { apply filter_none. eapply Forall_impl; [exact Her|].
    intros b Hb. by rewrite (error_line_not_warning b Hb). }
  pose proof (filter_all _ _ Her) as Hee.
  pose proof (filter_all _ _ Hwa) as Hww.
  unfold summary. destruct er as [|x er], wa as [|y wa]; cbn [truthy orb];
    [done|..]; rewrite !filter_app;
    repeat (rewrite (filter_cons_False _ (nl +:+ _)) by done);
    rewrite ?filter_nil, ?Hee, ?Hww, ?Hew, ?Hwe, ?app_nil_r; done.
Qed.

(** X19: no diagnostic is lost and none is made up.  Among the blocks of a
    document that opened, the lines worded as errors are exactly the errors
    recorded, in the order they were recorded, and the lines worded as
    warnings are exactly the warnings recorded, in their order. *)
Theorem diagnostics_listed reader pdf doc s :
  open_pdf pdf = Ok doc →
  let run := process_pdf reader pdf s in
  filter (λ b, is_error_line b = true) (markdown run.2) = errors run.2
  ∧ filter (λ b, is_warning_line b = true) (markdown run.2) = warnings run.2.
Proof.
  intros Hopen run. unfold run.
  rewrite (process_pdf_opened _ _ doc) by done. cbn [snd markdown errors warnings].
  unfold document_markdown. fold (document_added reader doc).
  pose proof (pages_added_blocks_kinds reader doc (length (pages doc))
                (range (length (pages doc)))) as Hk.
  fold (document_added reader doc) in Hk.
  destruct (pages_added_diagnostics reader doc (length (pages doc))
              (range (length (pages doc)))) as [Her Hwa].
  fold (document_added reader doc) in Her, Hwa.
  destruct (filter_errors_summary _ _ Her Hwa) as [Hse Hsw].
  rewrite !filter_app, Hse, Hsw, !(filter_none _ (markdown _)); [done| |].
  - eapply Forall_impl; [exact Hk|]. by intros b (_ & -> & _).
  - eapply Forall_impl; [exact Hk|]. by intros b (-> & _ & _).
Qed.

(** The statement of [diagnostics_listed] on the page of three images, one
    of them refused. *)
Lemma diagnostics_listed_witness :
  let run := process_pdf (Some easyocr_Reader) Sample.figures_pdf ε in
  filter (λ b, is_error_line b = true) (markdown run.2) = errors run.2
  ∧ filter (λ b, is_warning_line b = true) (markdown run.2) = warnings run.2.
Proof.
  apply (diagnostics_listed (Some easyocr_Reader) Sample.figures_pdf
           Sample.figures ε).
  reflexivity.
Defined.

(** ** Start-up *)

Lemma get_reader_run init s :
  get_reader init s
  = match init with
    | Ok r => (Return (Some r), s)
    | Err e =>
        (Return None,
         s ⊕ added [] [] [] [st_error ("Failed to initialize EasyOCR: " +:+ e)])
    end.
Proof.
  unfold get_reader, try_except, mbind, py_bind.
  destruct init as [r|e]; cbn; [done|]. f_equal. state_eq.
Qed.

(** X20: a failure to initialise EasyOCR is not fatal.  [get_reader] never
    raises: it hands over the handle, or shows [Failed to initialize
    EasyOCR] once and hands over [None].  A batch run after it still
    returns normally, packages and reports the documents as it does for
    that reader, and what the user is shown is the start-up failure, if
    any, followed by the reports of the documents. *)
Theorem startup_then_batch splitext init (files : list uploaded_file) s :
  let reader := if init is Ok r then Some r else None in
  let shown :=
    if init is Err e then ["Failed to initialize EasyOCR: " +:+ e] else [] in
  let run := (reader ← get_reader init;
              Process_Files splitext reader true files) s in
  (get_reader init s).1 = Return reader
  ∧ run.1 = Return tt
  ∧ zipf run.2 = zipf s ++ omap (packaged splitext reader) files
  ∧ st_errors (events run.2)
    = st_errors (events s) ++ shown ++ omap (reported reader) files.
Proof.
  cbn zeta. unfold mbind, py_bind. rewrite get_reader_run.
  set (reader := if init is Ok r then Some r else None).
  assert (∀ s0, ∃ s',
            Process_Files splitext reader true files s0 = (Return tt, s')
            ∧ zipf s' = zipf s0 ++ omap (packaged splitext reader) files
            ∧ st_errors (events s')
              = st_errors (events s0) ++ omap (reported reader) files)
    as Hbatch.
  { intros s0.
    destruct (process_files_run splitext reader (enumerate files) s0)
      as (s' & Hloop & Hz & He).
    unfold enumerate in Hz, He. rewrite snd_enumerate_from in Hz, He.
    unfold Process_Files, when.
    destruct files as [|f l]; cbn [andb truthy]; [|by exists s'].
    exists s0. by rewrite !app_nil_r. }
  destruct init as [r|e]; subst reader; cbv beta iota; cbn [fst].
  - destruct (Hbatch s) as (s' & -> & Hz & He). by cbn [fst snd].
  - destruct (Hbatch (s ⊕ added [] [] []
                        [st_error ("Failed to initialize EasyOCR: " +:+ e)]))
      as (s' & -> & Hz & He).
    cbn [fst snd]. rewrite Hz, He. split_and!; try done.
    + cbn. by rewrite app_nil_r.
    + rewrite events_state_app, st_errors_app. cbn. by rewrite <- app_assoc.
Qed.

(** The statement of [startup_then_batch] when EasyOCR cannot load its
    model. *)
Lemma startup_then_batch_witness :
  let init : result Reader := Err "model download failed" in
  let files := [Sample.upload "scan.pdf" Sample.two_pages;
                Sample.upload "broken.pdf" Sample.unreadable] in
  let reader := if init is Ok r then Some r else None in
  let shown :=
    if init is Err e then ["Failed to initialize EasyOCR: " +:+ e] else [] in
  let run := (reader ← get_reader init;
              Process_Files posix_splitext reader true files) ε in
  (get_reader init ε).1 = Return reader
  ∧ run.1 = Return tt
  ∧ zipf run.2 = zipf ε ++ omap (packaged posix_splitext reader) files
  ∧ st_errors (events run.2)
    = st_errors (events ε) ++ shown ++ omap (reported reader) files.
Proof.
  apply (startup_then_batch posix_splitext (Err "model download failed")
           [Sample.upload "scan.pdf" Sample.two_pages;
            Sample.upload "broken.pdf" Sample.unreadable] ε).
Defined.
